(** * Device discovery and vendor-resolution cache: a shallow embedding

    This development embeds the three modules found under
    [attached_assets/]:

    - [mac_vendor.py]          the rate-limited, persisted vendor cache,
    - [realtime_discovery.py]  the passive ARP/DHCP inventory and promotion,
    - [discovery.py]           the active per-host probe,

    and states the properties of the specification as theorems about the
    embedded functions.

    Conventions.
    - A Python [str] is a [string] (a list of 8-bit characters); the
      character tests and case mappings are the ASCII ones.
    - A point in time ([time.time()], [datetime.now()]) is an integer number
      of microseconds, the resolution of [datetime]; [seconds n] is [n]
      seconds.  Rounding of floating-point timestamps is not modelled.
    - A JSON document or an untyped Python value is a [pyval].
    - Module-level and instance state is threaded explicitly through a small
      state monad; whatever the outside world decides (how long an operation
      takes, what an HTTP server answers, whether the disk accepts a write)
      is read from an oracle carried by the state. *)

From Stdlib Require Import ZArith List String Ascii Bool Lia.
From stdpp Require Import base option list gmap strings pretty.

Local Open Scope Z_scope.
Local Open Scope string_scope.

(** ** Python strings *)

Module PyStr.

Definition is_lower (c : ascii) : bool :=
  let n := nat_of_ascii c in (Nat.leb 97 n && Nat.leb n 122)%bool.

Definition is_upper (c : ascii) : bool :=
  let n := nat_of_ascii c in (Nat.leb 65 n && Nat.leb n 90)%bool.

Definition is_digit (c : ascii) : bool :=
  let n := nat_of_ascii c in (Nat.leb 48 n && Nat.leb n 57)%bool.

(** [c.isalnum()] *)
Definition isalnum (c : ascii) : bool :=
  (is_digit c || is_upper c || is_lower c)%bool.

(** [c.isspace()] on the ASCII range: TAB, LF, VT, FF, CR, FS, GS, RS, US
    and the space. *)
Definition isspace (c : ascii) : bool :=
  let n := nat_of_ascii c in
  ((Nat.leb 9 n && Nat.leb n 13) || (Nat.leb 28 n && Nat.leb n 32))%bool.

Definition upper_char (c : ascii) : ascii :=
  if is_lower c then ascii_of_nat (nat_of_ascii c - 32) else c.

Definition lower_char (c : ascii) : ascii :=
  if is_upper c then ascii_of_nat (nat_of_ascii c + 32) else c.

Fixpoint map_chars (f : ascii -> ascii) (s : string) : string :=
  match s with
  | EmptyString => EmptyString
  | String c r => String (f c) (map_chars f r)
  end.

(** [s.upper()] and [s.lower()] *)
Definition upper (s : string) : string := map_chars upper_char s.
Definition lower (s : string) : string := map_chars lower_char s.

(** [''.join(c for c in s if p(c))] *)
Fixpoint filter_chars (p : ascii -> bool) (s : string) : string :=
  match s with
  | EmptyString => EmptyString
  | String c r => if p c then String c (filter_chars p r) else filter_chars p r
  end.

(** Truth value of a string: [not s] holds for the empty string only. *)
Definition nonempty (s : string) : bool :=
  match s with EmptyString => false | String _ _ => true end.

(** [s[:n]] *)
Fixpoint take (n : nat) (s : string) : string :=
  match n, s with
  | S n', String c r => String c (take n' r)
  | _, _ => EmptyString
  end.

Fixpoint drop (n : nat) (s : string) : string :=
  match n, s with
  | S n', String _ r => drop n' r
  | _, _ => s
  end.

(** [s[-n:]] for [n > 0] *)
Definition last_chars (n : nat) (s : string) : string :=
  drop (String.length s - n) s.

(** [needle in hay] *)
Fixpoint contains (needle hay : string) : bool :=
  if String.prefix needle hay then true
  else match hay with
       | EmptyString => false
       | String _ r => contains needle r
       end.

Fixpoint lstrip (s : string) : string :=
  match s with
  | String c r => if isspace c then lstrip r else s
  | EmptyString => EmptyString
  end.

Fixpoint rstrip (s : string) : string :=
  match s with
  | EmptyString => EmptyString
  | String c r =>
      match rstrip r with
      | EmptyString => if isspace c then EmptyString else String c EmptyString
      | r' => String c r'
      end
  end.

(** [s.strip()] *)
Definition strip (s : string) : string := rstrip (lstrip s).

(** [any(name in s for name in names)] *)
Definition any_in (names : list string) (s : string) : bool :=
  existsb (fun name => contains name s) names.

End PyStr.

(** ** Untyped values

    What [response.json()] returns, and what a dictionary field may hold. *)

#[local] Unset Elimination Schemes.
Inductive pyval :=
| PNone
| PBool (b : bool)
| PInt (z : Z)
| PStr (s : string)
| PList (l : list pyval)
| PDict (items : list (string * pyval)).
#[local] Set Elimination Schemes.

(** Truth value of a Python object, as tested by [if v:] and [v or d]. *)
Definition truthy (v : pyval) : bool :=
  match v with
  | PNone => false
  | PBool b => b
  | PInt z => negb (Z.eqb z 0)
  | PStr s => PyStr.nonempty s
  | PList l => match l with [] => false | _ => true end
  | PDict d => match d with [] => false | _ => true end
  end.

(** [v != s] for a string literal [s] *)
Definition differs_from_str (v : pyval) (s : string) : bool :=
  match v with
  | PStr s' => negb (String.eqb s' s)
  | _ => true
  end.

Fixpoint assoc {A} (key : string) (items : list (string * A)) : option A :=
  match items with
  | [] => None
  | (k, v) :: r => if String.eqb k key then Some v else assoc key r
  end.

(** [d.get(key, default)]; [None] stands for the [AttributeError] raised
    when [d] is not a dictionary. *)
Definition py_get (d : pyval) (key : string) (dflt : pyval) : option pyval :=
  match d with
  | PDict items => Some (default dflt (assoc key items))
  | _ => None
  end.

(** ** The state monad *)

Definition St (S A : Type) : Type := S -> A * S.

Definition ret {S A} (a : A) : St S A := fun s => (a, s).

Definition bind {S A B} (m : St S A) (k : A -> St S B) : St S B :=
  fun s => let (a, s') := m s in k a s'.

Definition gets {S A} (f : S -> A) : St S A := fun s => (f s, s).

Definition modify {S} (f : S -> S) : St S unit := fun s => (tt, f s).

Definition when {S} (b : bool) (m : St S unit) : St S unit :=
  if b then m else ret tt.

Declare Scope st_scope.
Delimit Scope st_scope with st.
Notation "x <- c ;; k" := (bind c (fun x => k))
  (at level 100, c at next level, right associativity) : st_scope.
Notation "c ;;; k" := (bind c (fun _ => k))
  (at level 100, right associativity) : st_scope.

Definition exec {S A} (m : St S A) (s : S) : S := snd (m s).
Definition eval {S A} (m : St S A) (s : S) : A := fst (m s).

(** ** The outside world *)

Definition seconds (n : Z) : Z := n * 1000000.

(** What [requests.get] produces: an exception (timeout, refused
    connection, DNS failure), or a response with its status code, its
    [text] and the result of [response.json()] ([None] when the body is not
    JSON and the call raises). *)
Inductive HttpOutcome :=
| HttpRaises
| HttpResponse (status_code : Z) (text : string) (json : option pyval).

(** What opening and writing the cache file produces. *)
Inductive DiskOutcome :=
| WriteOk
| OpenFails     (* [open] raises [IOError]: the file is left as it was *)
| WriteFails.   (* [json.dump] raises [IOError] after the file was truncated *)

Record Env := {
  latency : nat -> N;                        (* duration of the n-th effect *)
  http_server : nat -> string -> HttpOutcome;(* answer to the n-th request *)
  disk : nat -> DiskOutcome                  (* fate of the n-th file write *)
}.

Inductive CacheFile :=
| NoFile
| FileData (content : gmap string (pyval * Z))
| FilePartial.

(** The process as seen by [mac_vendor.py]: the environment, the wall
    clock, the requests issued so far (newest first, each with the time it
    was issued), the cache file, and the two attributes of the
    [MacVendorLookup] singleton. *)
Record Sys := {
  env : Env;
  steps : nat;
  now : Z;
  http_log : list (Z * string);
  disk_writes : nat;
  cache_file : CacheFile;
  cache : gmap string (pyval * Z);
  last_request_time : Z
}.

Definition set_clock (n : nat) (t : Z) (s : Sys) : Sys :=
  {| env := env s; steps := n; now := t; http_log := http_log s;
     disk_writes := disk_writes s; cache_file := cache_file s;
     cache := cache s; last_request_time := last_request_time s |}.

Definition set_http_log (l : list (Z * string)) (s : Sys) : Sys :=
  {| env := env s; steps := steps s; now := now s; http_log := l;
     disk_writes := disk_writes s; cache_file := cache_file s;
     cache := cache s; last_request_time := last_request_time s |}.

Definition set_file (n : nat) (f : CacheFile) (s : Sys) : Sys :=
  {| env := env s; steps := steps s; now := now s; http_log := http_log s;
     disk_writes := n; cache_file := f;
     cache := cache s; last_request_time := last_request_time s |}.

Definition set_cache (c : gmap string (pyval * Z)) (s : Sys) : Sys :=
  {| env := env s; steps := steps s; now := now s; http_log := http_log s;
     disk_writes := disk_writes s; cache_file := cache_file s;
     cache := c; last_request_time := last_request_time s |}.

Definition set_last_request_time (t : Z) (s : Sys) : Sys :=
  {| env := env s; steps := steps s; now := now s; http_log := http_log s;
     disk_writes := disk_writes s; cache_file := cache_file s;
     cache := cache s; last_request_time := t |}.

Local Open Scope st_scope.

(** Time passes: every effect below ends with [elapse], which advances the
    clock by the duration the environment gives to that effect. *)
Definition elapse : St Sys unit :=
  modify (fun s => set_clock (S (steps s))
                             (now s + Z.of_N (latency (env s) (steps s))) s).

(** [time.time()], [datetime.now()] *)
Definition time_time : St Sys Z :=
  t <- gets now ;; elapse ;;; ret t.

(** [time.sleep(d)]: at least [d] passes. *)
Definition time_sleep (d : Z) : St Sys unit :=
  modify (fun s => set_clock (steps s) (now s + Z.max 0 d) s) ;;; elapse.

(** [requests.get(url, headers=..., timeout=5)] *)
Definition requests_get (url : string) : St Sys HttpOutcome :=
  s <- gets id ;;
  modify (set_http_log ((now s, url) :: http_log s)) ;;;
  elapse ;;;
  ret (http_server (env s) (length (http_log s)) url).

(** ** mac_vendor.py *)

Definition CACHE_EXPIRY : Z := 30 * 24 * 60 * 60.

Definition API_URLS : list string :=
  [ "https://api.macvendors.com/"; "https://api.maclookup.app/v2/macs/" ].

Module MacVendorLookup.

(** [self.request_interval], set once by [__init__] *)
Definition request_interval : Z := 1.

(** The attributes after [__init__], for a given result of [_load_cache]. *)
Definition init (loaded : gmap string (pyval * Z)) (s : Sys) : Sys :=
  set_last_request_time 0 (set_cache loaded s).

Definition _save_cache : St Sys unit :=
  s <- gets id ;;
  let n := disk_writes s in
  match disk (env s) n with
  | WriteOk => modify (set_file (S n) (FileData (cache s)))
  | OpenFails => modify (set_file (S n) (cache_file s))
  | WriteFails => modify (set_file (S n) FilePartial)
  end ;;;
  elapse.

Definition _normalize_mac (mac : string) : string :=
  let mac := PyStr.upper mac in
  let mac := PyStr.filter_chars PyStr.isalnum mac in
  if (String.length mac <? 6)%nat then ""
  else PyStr.take 6 mac.

(** The body of the [if response.status_code == 200] branch for the
    provider that answers with a JSON envelope.  [None] stands for leaving
    the branch without returning: either the envelope declines, or one of
    the calls raises and the [except] clause moves on. *)
Definition parse_envelope (json : option pyval) : option pyval :=
  match json with
  | None => None
  | Some data =>
      match py_get data "success" PNone with
      | None => None
      | Some success =>
          if truthy success then
            match py_get data "data" PNone with
            | None => None
            | Some d =>
                if truthy d then py_get d "vendor" (PStr "Unknown")
                else None
            end
          else None
      end
  end.

(** The loop of [_lookup_online] over the remaining providers. *)
Fixpoint _lookup_online_from (urls : list string) (mac : string)
  : St Sys pyval :=
  match urls with
  | [] => ret (PStr "Unknown")
  | api_url :: rest =>
      response <- requests_get (api_url +:+ mac) ;;
      match response with
      | HttpRaises => _lookup_online_from rest mac
      | HttpResponse status_code text json =>
          if (status_code =? 200)%Z then
            if PyStr.contains "maclookup.app" api_url then
              match parse_envelope json with
              | Some vendor => ret vendor
              | None => _lookup_online_from rest mac
              end
            else ret (PStr (PyStr.strip text))
          else _lookup_online_from rest mac
      end
  end.

Definition _lookup_online (mac : string) : St Sys pyval :=
  _lookup_online_from API_URLS mac.

(** The cache test at the head of [lookup]: the vendor to serve, if any. *)
Definition cache_hit (c : gmap string (pyval * Z)) (key : string)
    (current_time : Z) : option pyval :=
  match c !! key with
  | Some (vendor, timestamp) =>
      if (current_time - timestamp <? seconds CACHE_EXPIRY)%Z
      then Some vendor else None
  | None => None
  end.

Definition lookup (mac : string) : St Sys pyval :=
  if negb (PyStr.nonempty mac) then ret PNone else
  let normalized_mac := _normalize_mac mac in
  if negb (PyStr.nonempty normalized_mac) then ret PNone else
  current_time <- time_time ;;
  c <- gets cache ;;
  match cache_hit c normalized_mac current_time with
  | Some vendor => ret vendor
  | None =>
      last <- gets last_request_time ;;
      when (current_time - last <? seconds request_interval)%Z
           (time_sleep (seconds request_interval - (current_time - last))) ;;;
      vendor <- _lookup_online normalized_mac ;;
      t <- time_time ;;
      modify (set_last_request_time t) ;;;
      when (truthy vendor)
           (modify (fun s => set_cache
                      (<[normalized_mac := (vendor, current_time)]> (cache s)) s) ;;;
            _save_cache) ;;;
      ret vendor
  end.

(** [None] stands for the [AttributeError] of [vendor.lower()] on a value
    that is not a string. *)
Definition get_device_type (vendor : pyval) : option string :=
  match vendor with
  | PStr vendor =>
      let vendor_lower := PyStr.lower vendor in
      Some (
      if PyStr.any_in ["apple"; "samsung"; "xiaomi"; "oppo"; "vivo"; "huawei"; "oneplus"] vendor_lower
      then "Điện thoại"
      else if PyStr.any_in ["dell"; "hp"; "lenovo"; "asus"; "acer"; "intel"; "microsoft"] vendor_lower
      then "Máy tính"
      else if PyStr.any_in ["cisco"; "juniper"; "aruba"; "mikrotik"; "ubiquiti"; "tplink"; "tp-link"; "d-link"; "netgear"] vendor_lower
      then "Thiết bị mạng"
      else if PyStr.any_in ["sony"; "samsung"; "lg"; "hisense"; "tcl"; "panasonic"; "sharp"; "philips"] vendor_lower
      then "Smart TV"
      else if PyStr.any_in ["nest"; "ring"; "ecobee"; "sonos"; "honeywell"; "broadlink"; "tuya"] vendor_lower
      then "Thiết bị thông minh"
      else "Khác")
  | _ => None
  end.

End MacVendorLookup.

(** ** The records of [models] and the monitored-device store of [config]

    Neither module is among the sources; the record types list the
    attributes the discovery code reads. *)

Module ArpEntry.
Record t := {
  mac_address : string;
  address : string;
  device_id : string;
  vendor : option string;
  device_type : option string
}.
End ArpEntry.

Module DHCPLease.
Record t := {
  mac_address : string;
  address : string;
  hostname : option string;
  device_id : string;
  vendor : option string;
  device_type : option string
}.
End DHCPLease.

(** [DataStore.arp_entries] and [DataStore.dhcp_leases]: per monitored
    device, the rows last fetched from it. *)
Record DataStore := {
  arp_entries : list (string * list ArpEntry.t);
  dhcp_leases : list (string * list DHCPLease.t)
}.

(** A dictionary of the monitored set, with the keys either producer
    writes; an absent key is [None]. *)
Module Device.
Record t := {
  id : option string;
  name : string;
  host : string;
  mac_address : option string;
  site_id : option string;
  port : Z;
  username : string;
  password : string;
  enabled : bool;
  use_ssl : bool;
  vendor : option pyval;
  device_type : option string;
  comment : option string;
  board_name : option string;
  version : option string
}.

Definition with_id (i : option string) (d : t) : t :=
  {| id := i; name := name d; host := host d; mac_address := mac_address d;
     site_id := site_id d; port := port d; username := username d;
     password := password d; enabled := enabled d; use_ssl := use_ssl d;
     vendor := vendor d; device_type := device_type d; comment := comment d;
     board_name := board_name d; version := version d |}.
End Device.

(** A dictionary of [discovered_devices]. *)
Module Discovered.
Record t := {
  mac_address : string;
  ip_address : string;
  hostname : option string;
  vendor : pyval;
  device_type : string;
  first_seen : Z;
  last_seen : Z;
  source : string;
  source_device_id : string;
  is_new : bool
}.

(** [d["last_seen"] = ls; d["ip_address"] = ip] *)
Definition seen (ls : Z) (ip : string) (d : t) : t :=
  {| mac_address := mac_address d; ip_address := ip; hostname := hostname d;
     vendor := vendor d; device_type := device_type d;
     first_seen := first_seen d; last_seen := ls; source := source d;
     source_device_id := source_device_id d; is_new := is_new d |}.

(** [d["hostname"] = h] *)
Definition with_hostname (h : option string) (d : t) : t :=
  {| mac_address := mac_address d; ip_address := ip_address d; hostname := h;
     vendor := vendor d; device_type := device_type d;
     first_seen := first_seen d; last_seen := last_seen d; source := source d;
     source_device_id := source_device_id d; is_new := is_new d |}.

(** [d["is_new"] = b] *)
Definition with_is_new (b : bool) (d : t) : t :=
  {| mac_address := mac_address d; ip_address := ip_address d;
     hostname := hostname d; vendor := vendor d; device_type := device_type d;
     first_seen := first_seen d; last_seen := last_seen d; source := source d;
     source_device_id := source_device_id d; is_new := b |}.
End Discovered.

(** Truth value of an optional string: [None] and [""] are false. *)
Definition str_truthy (o : option string) : bool :=
  match o with Some s => PyStr.nonempty s | None => false end.

(** [o or d] *)
Definition str_or (o : option string) (d : string) : string :=
  match o with
  | Some s => if PyStr.nonempty s then s else d
  | None => d
  end.

(** The whole process: the part seen by the vendor cache, the module
    global [discovered_devices], and the monitored set held by [config]
    together with the identifiers it will hand out. *)
Record World := {
  sys : Sys;
  discovered_devices : gmap string Discovered.t;
  monitored : list Device.t;
  id_source : nat -> string
}.

Definition set_sys (s : Sys) (w : World) : World :=
  {| sys := s; discovered_devices := discovered_devices w;
     monitored := monitored w; id_source := id_source w |}.

Definition set_discovered (m : gmap string Discovered.t) (w : World) : World :=
  {| sys := sys w; discovered_devices := m;
     monitored := monitored w; id_source := id_source w |}.

Definition set_monitored (l : list Device.t) (w : World) : World :=
  {| sys := sys w; discovered_devices := discovered_devices w;
     monitored := l; id_source := id_source w |}.

(** Running a computation of [mac_vendor.py] inside the process. *)
Definition lift {A} (m : St Sys A) : St World A :=
  fun w => let (a, s') := m (sys w) in (a, set_sys s' w).

Module config.

(** Modelled from the spec: the monitored-device store of the [config]
    module, which is not among the sources.  The spec gives its contract as
    [list() -> [MonitoredDevice]] and [create(record) -> id]; [get_devices]
    lists the stored records. *)
Definition get_devices : St World (list Device.t) := gets monitored.

(** Modelled from the spec: [create(record) -> id] of the monitored-device
    store ([config.add_device], not among the sources).  The record is
    appended to the stored list; the store assigns the identifier when the
    caller left it empty, as the caller's comment on ["id": None] says. *)
Definition add_device (d : Device.t) : St World unit :=
  modify (fun w =>
    let d' := match Device.id d with
              | Some _ => d
              | None => Device.with_id (Some (id_source w (length (monitored w)))) d
              end in
    set_monitored ((monitored w ++ [d'])%list) w).

End config.

(** ** realtime_discovery.py *)

Definition NEW_DEVICE_THRESHOLD : Z := 300.
Definition SCAN_INTERVAL : Z := 20.

(** [timedelta(days=n)] *)
Definition timedelta_days (n : Z) : Z := seconds (n * 24 * 60 * 60).

(** [td.total_seconds() < n] *)
Definition total_seconds_lt (td n : Z) : bool := (td <? seconds n)%Z.

Definition get_all_arp_entries (ds : DataStore) : list ArpEntry.t :=
  concat (map snd (arp_entries ds)).

Definition get_all_dhcp_leases (ds : DataStore) : list DHCPLease.t :=
  concat (map snd (dhcp_leases ds)).

(** The [entry: Any] argument of [extract_device_info]. *)
Inductive AnyEntry :=
| OfArp (e : ArpEntry.t)
| OfLease (l : DHCPLease.t).

Definition entry_mac_address (entry : AnyEntry) : string :=
  match entry with
  | OfArp e => ArpEntry.mac_address e
  | OfLease l => DHCPLease.mac_address l
  end.

Definition entry_address (entry : AnyEntry) : string :=
  match entry with
  | OfArp e => ArpEntry.address e
  | OfLease l => DHCPLease.address l
  end.

Definition entry_vendor (entry : AnyEntry) : option string :=
  match entry with
  | OfArp e => ArpEntry.vendor e
  | OfLease l => DHCPLease.vendor l
  end.

Definition entry_device_type (entry : AnyEntry) : option string :=
  match entry with
  | OfArp e => ArpEntry.device_type e
  | OfLease l => DHCPLease.device_type l
  end.

(** [hasattr(entry, "hostname")], and the attribute when it is there *)
Definition entry_hostname_attr (entry : AnyEntry) : option (option string) :=
  match entry with
  | OfArp _ => None
  | OfLease l => Some (DHCPLease.hostname l)
  end.

(** The [try] block of [extract_device_info]: the vendor and device type
    after the cache was asked.  When [get_device_type] raises, the vendor is
    already assigned and the device type is left as it was. *)
Definition resolve_vendor (mac_address device_type : string)
  : St World (pyval * string) :=
  v <- lift (MacVendorLookup.lookup mac_address) ;;
  let vendor := if truthy v then v else PStr "Unknown" in
  if differs_from_str vendor "Unknown" then
    match MacVendorLookup.get_device_type vendor with
    | Some t => ret (vendor, t)
    | None => ret (vendor, device_type)
    end
  else ret (vendor, device_type).

Definition extract_device_info (entry : AnyEntry) (source_type : string)
    (source_device_id : string) : St World Discovered.t :=
  now <- lift time_time ;;
  let mac_address := PyStr.upper (entry_mac_address entry) in
  let hostname :=
    if String.eqb source_type "dhcp" then
      match entry_hostname_attr entry with
      | Some h => h
      | None => Some ""
      end
    else Some "" in
  let vendor := str_or (entry_vendor entry) "Unknown" in
  let device_type := str_or (entry_device_type entry) "Unknown" in
  vd <- (if (String.eqb vendor "Unknown" && PyStr.nonempty mac_address)%bool
         then resolve_vendor mac_address device_type
         else ret (PStr vendor, device_type)) ;;
  ret {| Discovered.mac_address := mac_address;
         Discovered.ip_address := entry_address entry;
         Discovered.hostname := hostname;
         Discovered.vendor := fst vd;
         Discovered.device_type := snd vd;
         Discovered.first_seen := now;
         Discovered.last_seen := now;
         Discovered.source := source_type;
         Discovered.source_device_id := source_device_id;
         Discovered.is_new := true |}.

(** The [if]/[else] that recomputes [is_new]. *)
Definition refresh_is_new (now : Z) (d : Discovered.t) : Discovered.t :=
  Discovered.with_is_new
    (total_seconds_lt (now - Discovered.first_seen d) NEW_DEVICE_THRESHOLD) d.

(** The [else] branch of the ARP loop, on the dictionary of a known MAC. *)
Definition arp_update (now : Z) (entry : ArpEntry.t) (d : Discovered.t)
  : Discovered.t :=
  refresh_is_new now (Discovered.seen now (ArpEntry.address entry) d).

(** The [else] branch of the DHCP loop. *)
Definition dhcp_update (now : Z) (lease : DHCPLease.t) (d : Discovered.t)
  : Discovered.t :=
  let d := Discovered.seen now (DHCPLease.address lease) d in
  let d := if (str_truthy (DHCPLease.hostname lease)
               && negb (str_truthy (Discovered.hostname d)))%bool
           then Discovered.with_hostname (DHCPLease.hostname lease) d
           else d in
  refresh_is_new now d.

(** [discovered_devices[mac] = d] *)
Definition store_device (mac : string) (d : Discovered.t) : St World unit :=
  modify (fun w => set_discovered (<[mac := d]> (discovered_devices w)) w).

(** The local variables of [detect_new_devices]: [new_devices] and
    [current_macs].  A dictionary appended to [new_devices] is the very
    object stored in [discovered_devices], so the list is kept as the keys
    under which its elements are stored and read back when it is returned. *)
Definition Locals : Type := list string * gset string.

(** One iteration of [for entry in get_all_arp_entries()]. *)
Definition arp_body (now : Z) (entry : ArpEntry.t) (st : Locals)
  : St World Locals :=
  if negb (PyStr.nonempty (ArpEntry.mac_address entry)) then ret st else
  let mac := PyStr.upper (ArpEntry.mac_address entry) in
  let current_macs := snd st ∪ {[mac]} in
  inv <- gets discovered_devices ;;
  match inv !! mac with
  | None =>
      device_info <- extract_device_info (OfArp entry) "arp"
                       (ArpEntry.device_id entry) ;;
      store_device mac device_info ;;;
      ret ((fst st ++ [mac])%list, current_macs)
  | Some d =>
      store_device mac (arp_update now entry d) ;;;
      ret (fst st, current_macs)
  end.

(** One iteration of [for lease in get_all_dhcp_leases()]. *)
Definition dhcp_body (now : Z) (lease : DHCPLease.t) (st : Locals)
  : St World Locals :=
  if negb (PyStr.nonempty (DHCPLease.mac_address lease)) then ret st else
  let mac := PyStr.upper (DHCPLease.mac_address lease) in
  let current_macs := snd st ∪ {[mac]} in
  inv <- gets discovered_devices ;;
  match inv !! mac with
  | None =>
      device_info <- extract_device_info (OfLease lease) "dhcp"
                       (DHCPLease.device_id lease) ;;
      store_device mac device_info ;;;
      ret ((fst st ++ [mac])%list, current_macs)
  | Some d =>
      store_device mac (dhcp_update now lease d) ;;;
      ret (fst st, current_macs)
  end.

(** [for x in l: st = body(x, st)] *)
Fixpoint for_each {S A B} (body : A -> B -> St S B) (l : list A) (st : B)
  : St S B :=
  match l with
  | [] => ret st
  | x :: r => st' <- body x st ;; for_each body r st'
  end.

(** The condition under which the last loop deletes an entry. *)
Definition inactive (now : Z) (current_macs : gset string)
    (p : string * Discovered.t) : Prop :=
  (Discovered.last_seen p.2 < now - timedelta_days 1)%Z ∧ p.1 ∉ current_macs.

#[global] Instance inactive_dec now macs p : Decision (inactive now macs p).
Proof. unfold inactive. apply _. Defined.

Definition evict (now : Z) (current_macs : gset string)
    (inv : gmap string Discovered.t) : gmap string Discovered.t :=
  filter (fun p => ¬ inactive now current_macs p) inv.

Definition detect_new_devices (ds : DataStore) : St World (list Discovered.t) :=
  now <- lift time_time ;;
  st <- for_each (arp_body now) (get_all_arp_entries ds) ([], ∅) ;;
  st <- for_each (dhcp_body now) (get_all_dhcp_leases ds) st ;;
  modify (fun w => set_discovered
                     (evict now (snd st) (discovered_devices w)) w) ;;;
  inv <- gets discovered_devices ;;
  ret (omap (fun mac => inv !! mac) (fst st)).

(** The loop of [discovery_worker], for as many iterations as [running]
    stays set; [snapshots] gives the content of [DataStore] found by each
    iteration. *)
Fixpoint discovery_worker (snapshots : list DataStore) : St World unit :=
  match snapshots with
  | [] => ret tt
  | ds :: r =>
      detect_new_devices ds ;;;
      lift (time_sleep (seconds SCAN_INTERVAL)) ;;;
      discovery_worker r
  end.

Section Promotion.

(** [str(v)] for a value that is not a string, and
    [t.strftime('%d/%m/%Y %H:%M:%S')]: the two formatting built-ins the
    promotion uses for the display name and the comment. *)
Variable py_repr : pyval -> string.
Variable strftime : Z -> string.

Definition format_value (v : pyval) : string :=
  match v with
  | PStr s => s
  | _ => py_repr v
  end.

(** The test of the first loop over [config.get_devices()]. *)
Definition same_mac_ignoring_case (mac_address : string) (d : Device.t) : bool :=
  match Device.mac_address d with
  | Some m => String.eqb (PyStr.upper m) (PyStr.upper mac_address)
  | None => false
  end.

(** The test of the last loop: [device.get("mac_address") == mac_address]. *)
Definition same_mac_verbatim (mac_address : string) (d : Device.t) : bool :=
  match Device.mac_address d with
  | Some m => String.eqb m mac_address
  | None => false
  end.

Definition new_device_for (mac_address site_id : string)
    (device_info : Discovered.t) : Device.t :=
  let hostname := Discovered.hostname device_info in
  let vendor := Discovered.vendor device_info in
  let device_name :=
    if str_truthy hostname then default "" hostname
    else if differs_from_str vendor "Unknown"
    then format_value vendor +:+ " - " +:+ PyStr.last_chars 6 mac_address
    else "Thiết bị " +:+ PyStr.last_chars 6 mac_address in
  {| Device.id := None;
     Device.name := device_name;
     Device.host := Discovered.ip_address device_info;
     Device.mac_address := Some mac_address;
     Device.site_id := Some site_id;
     Device.port := 8728;
     Device.username := "admin";
     Device.password := "";
     Device.enabled := false;
     Device.use_ssl := false;
     Device.vendor := Some vendor;
     Device.device_type := Some (Discovered.device_type device_info);
     Device.comment :=
       Some ("Phát hiện tự động từ " +:+ Discovered.source device_info
             +:+ " vào " +:+ strftime (Discovered.first_seen device_info));
     Device.board_name := None;
     Device.version := None |}.

Definition add_to_monitored_devices (mac_address site_id : string)
  : St World (option string) :=
  inv <- gets discovered_devices ;;
  match inv !! mac_address with
  | None => ret None
  | Some device_info =>
      existing_devices <- config.get_devices ;;
      match List.find (same_mac_ignoring_case mac_address) existing_devices with
      | Some existing_device => ret (Device.id existing_device)
      | None =>
          config.add_device (new_device_for mac_address site_id device_info) ;;;
          devices <- config.get_devices ;;
          match List.find (same_mac_verbatim mac_address) devices with
          | Some device => ret (Device.id device)
          | None => ret None
          end
      end
  end.

End Promotion.

(** ** discovery.py: the per-host probe *)

Module Probe.

(** Any instance of [Exception], with its message. *)
Inductive Exception := Raised (message : string).

Inductive outcome (A : Type) :=
| Returns (a : A)
| Raises (e : Exception).
Arguments Returns {A} a.
Arguments Raises {A} e.

Definition and_then {A B} (m : outcome A) (k : A -> outcome B) : outcome B :=
  match m with
  | Returns a => k a
  | Raises e => Raises e
  end.

(** [try: body  except Exception as e: handler(e)] *)
Definition try_except {A} (body : outcome A) (handler : Exception -> outcome A)
  : outcome A :=
  match body with
  | Returns a => Returns a
  | Raises e => handler e
  end.

Declare Scope exc_scope.
Delimit Scope exc_scope with exc.
Notation "x <- c ;; k" := (and_then c (fun x => k))
  (at level 100, c at next level, right associativity) : exc_scope.

(** A row of a RouterOS resource. *)
Definition row : Type := list (string * string).

(** How the probed host behaves: the result of each call that talks to it.
    [connect_ex] returns the error indicator of the C-level [connect] (0 when
    the port is open, an [errno] such as [ECONNREFUSED], [EHOSTUNREACH] or
    [EAGAIN] after the timeout otherwise) and raises for other problems;
    [get_api] connects and logs in; the two [get] calls fetch rows. *)
Record Host := {
  connect_ex : outcome Z;
  get_api : outcome unit;
  system_resource_get : outcome (list row);
  identity_resource_get : outcome (list row);
  disconnect : outcome unit
}.

(** The largest number of whole seconds that the interpreter can keep as
    a timeout: it stores the timeout as a count of nanoseconds in a signed
    64-bit integer. *)
Definition TIMEOUT_MAX : Z := 9223372036.

(** [sock.settimeout(timeout)]: [ValueError] for a negative timeout,
    [OverflowError] for one that is too large to be kept. *)
Definition settimeout (timeout : Z) : outcome unit :=
  if (timeout <? 0)%Z then Raises (Raised "Timeout value out of range")
  else if (TIMEOUT_MAX <? timeout)%Z
  then Raises (Raised "timestamp too large to convert to C _PyTime_t")
  else Returns tt.

(** [l[0]] *)
Definition first_row (l : list row) : outcome row :=
  match l with
  | r :: _ => Returns r
  | [] => Raises (Raised "list index out of range")
  end.

(** [r.get(key, default)] *)
Definition row_get (r : row) (key default : string) : string :=
  match assoc key r with
  | Some v => v
  | None => default
  end.

Local Open Scope exc_scope.

(** The body of the [try] statement; [uuid] is the value [uuid.uuid4()]
    gives if it is reached. *)
Definition probe_body (h : Host) (uuid : string) (ip username password : string)
    (port : Z) : outcome (option Device.t) :=
  result <- connect_ex h ;;
  if negb (result =? 0)%Z then Returns None else
  _ <- get_api h ;;
  rows <- system_resource_get h ;;
  resources <- first_row rows ;;
  rows <- identity_resource_get h ;;
  identity <- first_row rows ;;
  let device_info :=
    {| Device.id := Some uuid;
       Device.name := row_get identity "name" "Unknown Mikrotik";
       Device.host := ip;
       Device.mac_address := None;
       Device.site_id := None;
       Device.port := port;
       Device.username := username;
       Device.password := password;
       Device.enabled := true;
       Device.use_ssl := false;
       Device.vendor := None;
       Device.device_type := None;
       Device.comment := None;
       Device.board_name := Some (row_get resources "board-name" "Unknown");
       Device.version := Some (row_get resources "version" "Unknown") |} in
  _ <- disconnect h ;;
  Returns (Some device_info).

(** The probe of a process that has a descriptor left for its socket:
    [socket.socket(...)], on the first line, returns.  The timeout is set
    before the [try] statement, so what [settimeout] raises reaches the
    caller; the [finally] clause closes the socket and leaves the result as
    it is. *)
Definition check_mikrotik_device (h : Host) (uuid : string)
    (ip username password : string) (port timeout : Z)
  : outcome (option Device.t) :=
  _ <- settimeout timeout ;;
  try_except (probe_body h uuid ip username password port)
             (fun e => Returns None).

End Probe.

(** ** Notions used to state the properties *)

(** [advances s s']: what any computation of [mac_vendor.py] does to the
    outside world.  The environment is the same, the clock has not gone
    back, and the request log has grown by requests issued in between. *)
Definition advances (s s' : Sys) : Prop :=
  env s' = env s /\ (now s <= now s')%Z /\
  exists new, http_log s' = (new ++ http_log s)%list /\
              forall t u, In (t, u) new -> (now s <= t <= now s')%Z.

(** A computation all of whose runs advance the world and leave the
    attributes of the cache alone. *)
Definition quiet {A} (m : St Sys A) : Prop :=
  forall s, advances s (exec m s)
            /\ cache (exec m s) = cache s
            /\ last_request_time (exec m s) = last_request_time s
            /\ cache_file (exec m s) = cache_file s
            /\ disk_writes (exec m s) = disk_writes s.

(** The state in which [lookup] starts its online query: the clock was
    read, and the caller slept if the previous query was too recent. *)
Definition before_query (s : Sys) : Sys :=
  exec (when (now s - last_request_time s
              <? seconds MacVendorLookup.request_interval)%Z
             (time_sleep (seconds MacVendorLookup.request_interval
                          - (now s - last_request_time s))))
       (exec elapse s).

(** The state in which [lookup] returns after an online query that ended
    in state [s3] with [vendor]; [current_time] was read on entry. *)
Definition after_query (oui : string) (current_time : Z) (vendor : pyval)
    (s3 : Sys) : Sys :=
  let s5 := set_last_request_time (now s3) (exec elapse s3) in
  if truthy vendor
  then exec MacVendorLookup._save_cache
            (set_cache (<[oui := (vendor, current_time)]> (cache s5)) s5)
  else s5.

Definition provider_url (i : nat) (oui : string) : string :=
  nth i API_URLS "" +:+ oui.

(** A provider fails (the request raises or the status is not 200) or
    declines (the JSON provider answers 200 without a usable envelope). *)
Definition declines (api_url : string) (r : HttpOutcome) : bool :=
  match r with
  | HttpRaises => true
  | HttpResponse status_code _ json =>
      if (status_code =? 200)%Z then
        (PyStr.contains "maclookup.app" api_url
         && negb (bool_decide (is_Some (MacVendorLookup.parse_envelope json))))%bool
      else true
  end.

(** Every provider fails or declines, whatever it is asked and whenever. *)
Definition all_providers_fail (e : Env) : Prop :=
  forall n api_url mac, In api_url API_URLS ->
    declines api_url (http_server e n (api_url +:+ mac)) = true.

(** The request log read as the spec reads it: any two external calls are
    at least one second apart. *)
Definition calls_one_second_apart (log : list (Z * string)) : Prop :=
  forall i j ti ui tj uj, i <> j ->
    nth_error log i = Some (ti, ui) -> nth_error log j = Some (tj, uj) ->
    (seconds 1 <= Z.abs (ti - tj))%Z.

(** Every request issued so far was issued before [last_request_time] was
    last set. *)
Definition paced (s : Sys) : Prop :=
  forall t u, In (t, u) (http_log s) -> (t <= last_request_time s)%Z.

(** ** Scenarios *)

(** A process that has just started at time [t]: nothing was requested,
    the cache file does not exist and [_load_cache] gave the empty cache. *)
Definition sys_fresh (e : Env) (t : Z) : Sys :=
  {| env := e; steps := 0; now := t; http_log := []; disk_writes := 0;
     cache_file := NoFile; cache := ∅; last_request_time := 0 |}.

(** Both providers answer HTTP 500; every effect takes 0.2 s. *)
Definition env_all_down : Env :=
  {| latency := fun _ => 200000%N;
     http_server := fun _ _ => HttpResponse 500 "Internal Server Error" None;
     disk := fun _ => WriteOk |}.

Definition acme_envelope : pyval :=
  PDict [("success", PBool true); ("data", PDict [("vendor", PStr "Acme")])].

(** The first provider answers HTTP 500, the second the envelope naming
    Acme. *)
Definition env_fallback : Env :=
  {| latency := fun _ => 200000%N;
     http_server := fun _ url =>
       if PyStr.contains "maclookup.app" url
       then HttpResponse 200 "" (Some acme_envelope)
       else HttpResponse 500 "Internal Server Error" None;
     disk := fun _ => WriteOk |}.

(** The first provider answers with the bare vendor name. *)
Definition env_plain : Env :=
  {| latency := fun _ => 200000%N;
     http_server := fun _ _ => HttpResponse 200 "Acme Corp" None;
     disk := fun _ => WriteOk |}.

(** A process whose cache holds [vendor] for the OUI [AABBCC], fetched at
    time 0, and whose clock shows [t]. *)
Definition sys_cached (e : Env) (vendor : string) (t : Z) : Sys :=
  set_cache {[ "AABBCC" := (PStr vendor, 0%Z) ]} (sys_fresh e t).

(** ** One pass of the passive discovery, key by key *)

(** The two loops of [detect_new_devices] read as one loop over the rows
    of both feeds, ARP rows first. *)
Definition feed (ds : DataStore) : list AnyEntry :=
  (map OfArp (get_all_arp_entries ds) ++ map OfLease (get_all_dhcp_leases ds))%list.

Definition body (now : Z) (entry : AnyEntry) (st : Locals) : St World Locals :=
  match entry with
  | OfArp e => arp_body now e st
  | OfLease l => dhcp_body now l st
  end.

(** The [else] branch of either loop. *)
Definition update (now : Z) (entry : AnyEntry) (d : Discovered.t) : Discovered.t :=
  match entry with
  | OfArp e => arp_update now e d
  | OfLease l => dhcp_update now l d
  end.

(** The key under which a row is stored, if the row is not skipped. *)
Definition key_of (entry : AnyEntry) : option string :=
  if PyStr.nonempty (entry_mac_address entry)
  then Some (PyStr.upper (entry_mac_address entry))
  else None.

(** The rows of a feed that are stored under [k]. *)
Definition rows_for (k : string) (l : list AnyEntry) : list AnyEntry :=
  List.filter (fun e => bool_decide (key_of e = Some k)) l.

(** The keys observed by a feed: what [current_macs] holds after the loops. *)
Definition observed (l : list AnyEntry) : gset string :=
  list_to_set (omap key_of l).

(** The updates of the rows [es], applied in order to the dictionary [d]. *)
Definition replay (now : Z) (es : list AnyEntry) (d : Discovered.t) : Discovered.t :=
  fold_left (fun d e => update now e d) es d.

(** The hostname [extract_device_info] gives to a dictionary it creates. *)
Definition created_hostname (entry : AnyEntry) : option string :=
  match entry with
  | OfArp _ => Some ""
  | OfLease l => DHCPLease.hostname l
  end.

Definition entry_source (entry : AnyEntry) : string :=
  match entry with
  | OfArp _ => "arp"
  | OfLease _ => "dhcp"
  end.

(** [d] is a dictionary created for the row [entry] at time [t]. *)
Definition created_at (entry : AnyEntry) (t : Z) (d : Discovered.t) : Prop :=
  Discovered.first_seen d = t /\ Discovered.last_seen d = t
  /\ Discovered.is_new d = true
  /\ Discovered.hostname d = created_hostname entry
  /\ Discovered.mac_address d = PyStr.upper (entry_mac_address entry)
  /\ Discovered.ip_address d = entry_address entry
  /\ Discovered.source d = entry_source entry.

(** What the loops do to the entry of one key, given the rows [es] stored
    under it, the entry [before] the loops and the times [tlo], [thi] at
    which the loops start and end: a known dictionary receives the updates
    in order; an unknown key stays unknown when no row names it, and
    otherwise its dictionary is created for the first row and receives the
    updates of the others. *)
Definition key_outcome (now : Z) (es : list AnyEntry) (tlo thi : Z)
    (before after : option Discovered.t) : Prop :=
  match before with
  | Some d0 => after = Some (replay now es d0)
  | None =>
      match es with
      | [] => after = None
      | e :: r =>
          exists dc t, created_at e t dc /\ (tlo <= t <= thi)%Z
                       /\ after = Some (replay now r dc)
      end
  end.

(** The entry of a key after the eviction loop. *)
Definition after_eviction (now : Z) (k : string) (macs : gset string)
    (o : option Discovered.t) : option Discovered.t :=
  match o with
  | Some d => if decide (inactive now macs (k, d)) then None else Some d
  | None => None
  end.

(** The entry of [k] is there after every pass of a run of the worker. *)
Fixpoint present_throughout (k : string) (snapshots : list DataStore)
    (w : World) : Prop :=
  match snapshots with
  | [] => True
  | ds :: r =>
      let w1 := exec (detect_new_devices ds) w in
      is_Some (discovered_devices w1 !! k)
      /\ present_throughout k r (exec (lift (time_sleep (seconds SCAN_INTERVAL))) w1)
  end.

(** The same process [d] microseconds later. *)
Definition later (d : Z) (w : World) : World :=
  set_sys (set_clock (steps (sys w)) (now (sys w) + d) (sys w)) w.

(** A process that has just started, with nothing discovered and nothing
    monitored; the store names its records [dev-0], [dev-1], ... *)
Definition world_fresh (e : Env) (t : Z) : World :=
  {| sys := sys_fresh e t;
     discovered_devices := ∅;
     monitored := [];
     id_source := fun n => "dev-" +:+ pretty n |}.

Definition arp_row (mac ip : string) : ArpEntry.t :=
  {| ArpEntry.mac_address := mac; ArpEntry.address := ip;
     ArpEntry.device_id := "router-1";
     ArpEntry.vendor := None; ArpEntry.device_type := None |}.

Definition lease_row (mac ip : string) (hostname : option string) : DHCPLease.t :=
  {| DHCPLease.mac_address := mac; DHCPLease.address := ip;
     DHCPLease.hostname := hostname; DHCPLease.device_id := "router-1";
     DHCPLease.vendor := None; DHCPLease.device_type := None |}.

Definition snapshot (arp : list ArpEntry.t) (leases : list DHCPLease.t) : DataStore :=
  {| arp_entries := [("router-1", arp)]; dhcp_leases := [("router-1", leases)] |}.

(** One ARP row for the MAC [aa:bb:cc:00:11:22]. *)
Definition snapshot_arp_only : DataStore :=
  snapshot [arp_row "aa:bb:cc:00:11:22" "192.168.88.10"] [].

(** The same MAC reported by a lease that carries a hostname. *)
Definition snapshot_with_lease : DataStore :=
  snapshot [arp_row "aa:bb:cc:00:11:22" "192.168.88.10"]
           [lease_row "AA:BB:CC:00:11:22" "192.168.88.10" (Some "laptop")].


(** Every key of the inventory is in upper case. *)
Definition keys_upper (w : World) : Prop :=
  forall k, is_Some (discovered_devices w !! k) -> PyStr.upper k = k.

(** The MAC address a string spells, whatever its case and separators: the
    normalized form of the spec (upper case, alphanumeric characters only). *)
Definition canonical_mac (s : string) : string :=
  PyStr.filter_chars PyStr.isalnum (PyStr.upper s).

(** One device reported with separators by the ARP table of one router and
    without separators by the leases of another. *)
Definition snapshot_two_spellings : DataStore :=
  snapshot [arp_row "aa:bb:cc:00:11:22" "192.168.88.10"]
           [lease_row "aabbcc001122" "192.168.88.10" (Some "laptop")].

(** The record the store holds after a promotion that created one. *)
Definition promoted_record (py_repr : pyval -> string) (strftime : Z -> string)
    (mac site : string) (info : Discovered.t) (w : World) : Device.t :=
  Device.with_id (Some (id_source w (length (monitored w))))
                 (new_device_for py_repr strftime mac site info).

(** A host on which nothing listens: the connection is refused
    ([ECONNREFUSED]). *)
Definition host_refusing : Probe.Host :=
  {| Probe.connect_ex := Probe.Returns 111%Z;
     Probe.get_api := Probe.Raises (Probe.Raised "not reached");
     Probe.system_resource_get := Probe.Raises (Probe.Raised "not reached");
     Probe.identity_resource_get := Probe.Raises (Probe.Raised "not reached");
     Probe.disconnect := Probe.Raises (Probe.Raised "not reached") |}.

(** A host whose port is open and which rejects the login. *)
Definition host_rejecting_login : Probe.Host :=
  {| Probe.connect_ex := Probe.Returns 0%Z;
     Probe.get_api := Probe.Raises (Probe.Raised "invalid user name or password");
     Probe.system_resource_get := Probe.Raises (Probe.Raised "not reached");
     Probe.identity_resource_get := Probe.Raises (Probe.Raised "not reached");
     Probe.disconnect := Probe.Raises (Probe.Raised "not reached") |}.

(** A router that accepts the login and answers both queries. *)
Definition host_router : Probe.Host :=
  {| Probe.connect_ex := Probe.Returns 0%Z;
     Probe.get_api := Probe.Returns tt;
     Probe.system_resource_get :=
       Probe.Returns [[("board-name", "hAP ac2"); ("version", "7.11")]];
     Probe.identity_resource_get := Probe.Returns [[("name", "core-router")]];
     Probe.disconnect := Probe.Returns tt |}.

(** The state after the clock was read by a pass. *)
Definition pass_started (w : World) : World := set_sys (exec elapse (sys w)) w.

(** ** Further notions *)

(** [all(p(c) for c in s)] *)
Fixpoint all_chars (p : ascii -> bool) (s : string) : bool :=
  match s with
  | EmptyString => true
  | String c r => p c && all_chars p r
  end.

(** The first provider answers HTTP 200 with a body of white space. *)
Definition env_blank : Env :=
  {| latency := fun _ => 200000%N;
     http_server := fun _ _ => HttpResponse 200 "  " None;
     disk := fun _ => WriteOk |}.

(** The first provider names the vendor and the cache file cannot be
    opened for writing. *)
Definition env_readonly_disk : Env :=
  {| latency := fun _ => 200000%N;
     http_server := fun _ _ => HttpResponse 200 "Acme Corp" None;
     disk := fun _ => OpenFails |}.


(** Every dictionary of the inventory is stored under its own
    [mac_address], which is in upper case. *)
Definition keyed_by_mac (w : World) : Prop :=
  forall k d, discovered_devices w !! k = Some d ->
              Discovered.mac_address d = k /\ PyStr.upper k = k.

(** The fields an observation never writes. *)
Definition same_identity (d d' : Discovered.t) : Prop :=
  Discovered.mac_address d' = Discovered.mac_address d
  /\ Discovered.vendor d' = Discovered.vendor d
  /\ Discovered.device_type d' = Discovered.device_type d
  /\ Discovered.first_seen d' = Discovered.first_seen d
  /\ Discovered.source d' = Discovered.source d
  /\ Discovered.source_device_id d' = Discovered.source_device_id d.

(** A router that answers both queries and then breaks the connection
    while the session is being closed. *)
Definition host_failing_disconnect : Probe.Host :=
  {| Probe.connect_ex := Probe.Returns 0%Z;
     Probe.get_api := Probe.Returns tt;
     Probe.system_resource_get :=
       Probe.Returns [[("board-name", "hAP ac2"); ("version", "7.11")]];
     Probe.identity_resource_get := Probe.Returns [[("name", "core-router")]];
     Probe.disconnect := Probe.Raises (Probe.Raised "connection reset") |}.

(** ** mac_vendor.py: loading the cache *)

(** A value of the JSON object found in the cache file: a bare string, as
    older versions wrote it, or a two-element array of a vendor and a
    timestamp, as [_save_cache] writes a tuple.  (Any other value makes
    [tuple(value)] raise or gives a tuple that [lookup] cannot unpack.) *)
Inductive FileValue :=
| BareString (vendor : string)
| VendorAndTime (vendor : pyval) (timestamp : Z).

(** What [_load_cache] finds: no file; a file that cannot be opened or is
    not JSON ([IOError], [JSONDecodeError]); or a JSON object. *)
Inductive DiskFile :=
| Absent
| Unparsable
| JsonObject (items : list (string * FileValue)).

(** What a later process finds where [_save_cache] wrote. *)
Definition on_disk (f : CacheFile) : DiskFile :=
  match f with
  | NoFile => Absent
  | FilePartial => Unparsable
  | FileData content =>
      JsonObject (map (fun p => (p.1, VendorAndTime p.2.1 p.2.2))
                      (map_to_list content))
  end.

(** One iteration of [for mac, value in data.items()]. *)
Definition load_item (item : string * FileValue)
    (result : gmap string (pyval * Z)) : St Sys (gmap string (pyval * Z)) :=
  match item.2 with
  | BareString value =>
      t <- time_time ;;
      ret (<[item.1 := (PStr value, t)]> result)
  | VendorAndTime vendor timestamp =>
      ret (<[item.1 := (vendor, timestamp)]> result)
  end.

Definition _load_cache (f : DiskFile) : St Sys (gmap string (pyval * Z)) :=
  match f with
  | Absent => ret ∅
  | Unparsable => elapse ;;; ret ∅
  | JsonObject items => elapse ;;; for_each load_item items ∅
  end.

(** [MacVendorLookup()]: the constructor. *)
Definition startup (f : DiskFile) : St Sys unit :=
  loaded <- _load_cache f ;;
  modify (MacVendorLookup.init loaded).

(** A cache file left by an older version, with one bare string. *)
Definition legacy_file : DiskFile :=
  JsonObject [("AABBCC", BareString "Acme Corp");
              ("112233", VendorAndTime (PStr "Globex") 5%Z)].

(** ** Strings up to case, and ASCII strings *)

(** Two characters that are the same, or the two cases of one ASCII
    letter. *)
Definition char_same_up_to_case (a b : ascii) : bool :=
  let x := nat_of_ascii a in
  let y := nat_of_ascii b in
  (Nat.eqb x y
   || (Nat.leb 97 x && Nat.leb x 122 && Nat.eqb (y + 32) x)
   || (Nat.leb 65 x && Nat.leb x 90 && Nat.eqb y (x + 32)))%bool.

(** Two strings that differ at most in the case of ASCII letters. *)
Fixpoint same_up_to_case (s t : string) : bool :=
  match s, t with
  | EmptyString, EmptyString => true
  | String a s', String b t' =>
      (char_same_up_to_case a b && same_up_to_case s' t')%bool
  | _, _ => false
  end.

(** A string of ASCII characters.  On such strings [PyStr.upper],
    [PyStr.lower] and [PyStr.isalnum] are the methods of Python's [str]. *)
Definition ascii_only (s : string) : bool :=
  all_chars (fun c => Nat.ltb (nat_of_ascii c) 128) s.

(** The MAC reported by a lease only. *)
Definition snapshot_lease_only : DataStore :=
  snapshot [] [lease_row "aa:bb:cc:00:11:22" "192.168.88.10" (Some "laptop")].

(** A monitored device with another MAC. *)
Definition device_of_another_mac : Device.t :=
  {| Device.id := Some "dev-3";
     Device.name := "printer";
     Device.host := "192.168.88.40";
     Device.mac_address := Some "11:22:33:44:55:66";
     Device.site_id := Some "site-1";
     Device.port := 8728;
     Device.username := "admin";
     Device.password := "";
     Device.enabled := true;
     Device.use_ssl := false;
     Device.vendor := None;
     Device.device_type := None;
     Device.comment := None;
     Device.board_name := None;
     Device.version := None |}.

(** A monitored device entered by hand, with its MAC in lower case. *)
Definition device_entered_by_hand : Device.t :=
  {| Device.id := Some "dev-7";
     Device.name := "laptop";
     Device.host := "192.168.88.10";
     Device.mac_address := Some "aa:bb:cc:00:11:22";
     Device.site_id := Some "site-1";
     Device.port := 8728;
     Device.username := "admin";
     Device.password := "";
     Device.enabled := true;
     Device.use_ssl := false;
     Device.vendor := None;
     Device.device_type := None;
     Device.comment := None;
     Device.board_name := None;
     Device.version := None |}.

(** * Properties *)

(** ** Strings *)

Lemma upper_char_idem c : PyStr.upper_char (PyStr.upper_char c) = PyStr.upper_char c.
Proof. destruct c as [[] [] [] [] [] [] [] []]; reflexivity. Qed.

Lemma upper_idem s : PyStr.upper (PyStr.upper s) = PyStr.upper s.
Proof.
  unfold PyStr.upper.
  induction s as [|c r IH]; simpl; [reflexivity|].
  now rewrite upper_char_idem, IH.
Qed.

Lemma nonempty_upper s : PyStr.nonempty (PyStr.upper s) = PyStr.nonempty s.
Proof. destruct s; reflexivity. Qed.

Lemma nonempty_true s : PyStr.nonempty s = true <-> s <> "".
Proof. destruct s; simpl; split; congruence. Qed.

Example upper_mac : PyStr.upper "aa:bb:cc:00:11:22" = "AA:BB:CC:00:11:22".
Proof. reflexivity. Qed.

Example normalize_mac :
  MacVendorLookup._normalize_mac "aa:bb:cc:00:11:22" = "AABBCC"
  /\ MacVendorLookup._normalize_mac "12" = "".
Proof. split; reflexivity. Qed.

Example last6 : PyStr.last_chars 6 "AA:BB:CC:00:11:22" = ":11:22".
Proof. reflexivity. Qed.

Example cache_expiry_seconds : CACHE_EXPIRY = 2592000.
Proof. reflexivity. Qed.

(** ** The vendor cache *)

Lemma advances_refl s : advances s s.
Proof.
  split; [reflexivity|]. split; [lia|].
  exists []. split; [reflexivity|]. intros t u [].
Qed.

Lemma advances_trans s1 s2 s3 : advances s1 s2 -> advances s2 s3 -> advances s1 s3.
Proof.
  intros (He1 & Hn1 & new1 & Hl1 & Hb1) (He2 & Hn2 & new2 & Hl2 & Hb2).
  split; [congruence|]. split; [lia|].
  exists (new2 ++ new1)%list. split.
  - rewrite Hl2, Hl1. now rewrite app_assoc.
  - intros t u Hin. apply in_app_or in Hin as [Hin|Hin].
    + apply Hb2 in Hin. lia.
    + apply Hb1 in Hin. lia.
Qed.

Lemma quiet_ret {A} (a : A) : quiet (ret a).
Proof. intros s. cbn. auto using advances_refl. Qed.

Lemma quiet_bind {A B} (m : St Sys A) (k : A -> St Sys B) :
  quiet m -> (forall a, quiet (k a)) -> quiet (bind m k).
Proof.
  intros Hm Hk s. specialize (Hm s). unfold exec, bind in *.
  destruct (m s) as [a s1]. specialize (Hk a s1). unfold exec in Hk.
  destruct (k a s1) as [b s2]. cbn in *.
  destruct Hm as (Ha & Hc & Hl & Hf & Hd).
  destruct Hk as (Ha' & Hc' & Hl' & Hf' & Hd').
  split; [eauto using advances_trans|].
  repeat split; congruence.
Qed.

Lemma quiet_set_clock (n : Sys -> nat) (t : Sys -> Z) :
  (forall s, (now s <= t s)%Z) ->
  quiet (modify (fun s => set_clock (n s) (t s) s)).
Proof.
  intros Ht s. specialize (Ht s). cbn.
  split; [|auto].
  split; [reflexivity|]. cbn. split; [lia|].
  exists []. split; [reflexivity|]. intros ? ? [].
Qed.

Lemma quiet_elapse : quiet elapse.
Proof. apply quiet_set_clock. intros s. lia. Qed.

Lemma quiet_time_time : quiet time_time.
Proof.
  unfold time_time. apply quiet_bind.
  - intros s. cbn. auto using advances_refl.
  - intros t. apply quiet_bind; [apply quiet_elapse|]. intros _. apply quiet_ret.
Qed.

Lemma quiet_time_sleep d : quiet (time_sleep d).
Proof.
  unfold time_sleep. apply quiet_bind; [|intros _; apply quiet_elapse].
  apply quiet_set_clock. intros s. lia.
Qed.

Lemma quiet_log_request url :
  quiet (modify (fun s => set_http_log ((now s, url) :: http_log s) s)).
Proof.
  intros s. cbn. split; [|auto].
  split; [reflexivity|]. cbn. split; [lia|].
  exists [(now s, url)]. split; [reflexivity|].
  intros t u [Heq|[]]. inversion Heq; subst. lia.
Qed.

Lemma requests_get_eq url s :
  requests_get url s =
  (http_server (env s) (length (http_log s)) url,
   exec elapse (set_http_log ((now s, url) :: http_log s) s)).
Proof. reflexivity. Qed.

Lemma quiet_requests_get url : quiet (requests_get url).
Proof.
  intros s. unfold exec. rewrite requests_get_eq. cbn [snd].
  pose proof (quiet_log_request url s) as H1. cbn in H1.
  pose proof (quiet_elapse (set_http_log ((now s, url) :: http_log s) s)) as H2.
  destruct H1 as (Ha & Hc & Hl & Hf & Hd).
  destruct H2 as (Ha' & Hc' & Hl' & Hf' & Hd').
  split; [eauto using advances_trans|].
  repeat split; congruence.
Qed.

Lemma quiet_lookup_online_from urls mac :
  quiet (MacVendorLookup._lookup_online_from urls mac).
Proof.
  induction urls as [|api_url rest IH]; simpl.
  - apply quiet_ret.
  - apply quiet_bind; [apply quiet_requests_get|].
    intros [|status text json]; [exact IH|].
    destruct (status =? 200)%Z; [|exact IH].
    destruct (PyStr.contains _ _); [|apply quiet_ret].
    destruct (MacVendorLookup.parse_envelope json); [apply quiet_ret|exact IH].
Qed.

Lemma normalize_valid_nonempty mac :
  PyStr.nonempty (MacVendorLookup._normalize_mac mac) = true ->
  PyStr.nonempty mac = true.
Proof. destruct mac; [discriminate|reflexivity]. Qed.

Lemma lookup_invalid mac s :
  PyStr.nonempty (MacVendorLookup._normalize_mac mac) = false ->
  MacVendorLookup.lookup mac s = (PNone, s).
Proof.
  intros H. unfold MacVendorLookup.lookup.
  destruct (PyStr.nonempty mac); [|reflexivity]. cbn [negb].
  now rewrite H.
Qed.

Lemma lookup_hit mac s v :
  PyStr.nonempty (MacVendorLookup._normalize_mac mac) = true ->
  MacVendorLookup.cache_hit (cache s) (MacVendorLookup._normalize_mac mac) (now s)
    = Some v ->
  MacVendorLookup.lookup mac s = (v, exec elapse s).
Proof.
  intros Hv Hhit. unfold MacVendorLookup.lookup.
  rewrite (normalize_valid_nonempty _ Hv), Hv. cbn [negb].
  unfold bind at 1. cbn [time_time bind gets ret elapse modify].
  cbn [cache set_clock now]. now rewrite Hhit.
Qed.

Lemma lookup_miss mac s :
  PyStr.nonempty (MacVendorLookup._normalize_mac mac) = true ->
  MacVendorLookup.cache_hit (cache s) (MacVendorLookup._normalize_mac mac) (now s)
    = None ->
  MacVendorLookup.lookup mac s =
  let oui := MacVendorLookup._normalize_mac mac in
  let r := MacVendorLookup._lookup_online oui (before_query s) in
  (fst r, after_query oui (now s) (fst r) (snd r)).
Proof.
  intros Hv Hmiss. unfold MacVendorLookup.lookup.
  rewrite (normalize_valid_nonempty _ Hv), Hv. cbn [negb].
  unfold before_query, after_query, exec, time_time, elapse,
    bind, gets, ret, modify, when.
  cbn [cache set_clock now last_request_time fst snd]. rewrite Hmiss.
  set (s1 := set_clock _ _ s).
  change (last_request_time s1) with (last_request_time s).
  destruct (now s - last_request_time s <? _)%Z.
  - destruct (time_sleep _ s1) as [[] s2]. cbn [snd].
    destruct (MacVendorLookup._lookup_online _ s2) as [vendor s3].
    cbn [fst snd]. destruct (truthy vendor); [|reflexivity].
    now destruct (MacVendorLookup._save_cache _).
  - cbn [ret snd].
    destruct (MacVendorLookup._lookup_online _ s1) as [vendor s3].
    cbn [fst snd]. destruct (truthy vendor); [|reflexivity].
    now destruct (MacVendorLookup._save_cache _).
Qed.

Lemma before_query_spec s :
  env (before_query s) = env s
  /\ http_log (before_query s) = http_log s
  /\ cache (before_query s) = cache s
  /\ last_request_time (before_query s) = last_request_time s
  /\ cache_file (before_query s) = cache_file s
  /\ disk_writes (before_query s) = disk_writes s
  /\ (now s <= now (before_query s))%Z
  /\ (last_request_time s + seconds MacVendorLookup.request_interval
      <= now (before_query s))%Z.
Proof.
  unfold before_query, exec, when, time_sleep, elapse, bind, modify, ret.
  destruct (now s - last_request_time s <? _)%Z eqn:E; cbn.
  - apply Z.ltb_lt in E. repeat split; lia.
  - apply Z.ltb_ge in E. repeat split; lia.
Qed.

Lemma save_cache_spec s :
  let s' := exec MacVendorLookup._save_cache s in
  env s' = env s /\ http_log s' = http_log s /\ cache s' = cache s
  /\ last_request_time s' = last_request_time s
  /\ (now s <= now s')%Z
  /\ disk_writes s' = S (disk_writes s)
  /\ cache_file s' = match disk (env s) (disk_writes s) with
                     | WriteOk => FileData (cache s)
                     | OpenFails => cache_file s
                     | WriteFails => FilePartial
                     end.
Proof.
  unfold MacVendorLookup._save_cache, exec, bind, gets, modify, elapse.
  cbn. destruct (disk (env s) (disk_writes s)); cbn; repeat split; lia.
Qed.

Lemma after_query_spec oui current_time vendor s3 :
  let s' := after_query oui current_time vendor s3 in
  env s' = env s3 /\ http_log s' = http_log s3
  /\ last_request_time s' = now s3
  /\ (now s3 <= now s')%Z
  /\ cache s' = (if truthy vendor
                 then <[oui := (vendor, current_time)]> (cache s3)
                 else cache s3)
  /\ (truthy vendor = false ->
      cache_file s' = cache_file s3 /\ disk_writes s' = disk_writes s3)
  /\ (truthy vendor = true ->
      disk_writes s' = S (disk_writes s3)
      /\ cache_file s' = match disk (env s3) (disk_writes s3) with
                         | WriteOk => FileData (cache s')
                         | OpenFails => cache_file s3
                         | WriteFails => FilePartial
                         end).
Proof.
  unfold after_query. destruct (truthy vendor).
  - match goal with |- context [exec MacVendorLookup._save_cache ?x] =>
      pose proof (save_cache_spec x) as H end.
    cbn zeta in H. destruct H as (He & Hl & Hc & Hr & Hn & Hw & Hf).
    cbn zeta. rewrite He, Hl, Hc, Hr, Hw, Hf. cbn in *.
    split_and!; try reflexivity; try lia; intros; try discriminate.
    split; reflexivity.
  - cbn. split_and!; try reflexivity; try lia; intros; try discriminate.
    split; reflexivity.
Qed.

(** *** The providers *)

Lemma online_declined api_url rest mac s :
  declines api_url (http_server (env s) (length (http_log s)) (api_url +:+ mac))
    = true ->
  MacVendorLookup._lookup_online_from (api_url :: rest) mac s =
  MacVendorLookup._lookup_online_from rest mac
    (exec (requests_get (api_url +:+ mac)) s).
Proof.
  intros H. cbn [MacVendorLookup._lookup_online_from].
  unfold bind. rewrite requests_get_eq. unfold exec at 2.
  rewrite requests_get_eq. cbn [snd].
  destruct (http_server _ _ _) as [|st text json]; [reflexivity|].
  cbn [declines] in H. destruct (st =? 200)%Z; [|reflexivity].
  apply andb_true_iff in H as [-> H].
  destruct (MacVendorLookup.parse_envelope json); [|reflexivity].
  rewrite bool_decide_eq_true_2 in H by eauto. discriminate.
Qed.

Lemma online_all_fail urls mac s :
  all_providers_fail (env s) -> incl urls API_URLS ->
  eval (MacVendorLookup._lookup_online_from urls mac) s = PStr "Unknown".
Proof.
  revert s. induction urls as [|api_url rest IH]; intros s Hall Hin.
  - reflexivity.
  - unfold eval. rewrite online_declined.
    + apply IH.
      * destruct (quiet_requests_get (api_url +:+ mac) s) as ((He & _) & _).
        now rewrite He.
      * intros u Hu. apply Hin. now right.
    + apply Hall. apply Hin. now left.
Qed.

Lemma online_log urls mac s :
  exists new, http_log (exec (MacVendorLookup._lookup_online_from urls mac) s)
              = (new ++ http_log s)%list
    /\ forall t u, In (t, u) new ->
         (now s <= t <= now (exec (MacVendorLookup._lookup_online_from urls mac) s))%Z.
Proof.
  destruct (quiet_lookup_online_from urls mac s) as ((_ & _ & H) & _). exact H.
Qed.

Lemma request_then_log {A} url (k : HttpOutcome -> St Sys A) s :
  (forall r, quiet (k r)) ->
  exists more,
    http_log (exec (bind (requests_get url) k) s)
    = (more ++ (now s, url) :: http_log s)%list.
Proof.
  intros Hk. unfold exec, bind. rewrite requests_get_eq.
  set (s1 := exec elapse _).
  destruct (Hk (http_server (env s) (length (http_log s)) url) s1)
    as ((_ & _ & more & Hlog & _) & _).
  unfold exec in Hlog. exists more. rewrite Hlog. reflexivity.
Qed.

Lemma online_from_first_request api_url rest mac s :
  exists more,
    http_log (exec (MacVendorLookup._lookup_online_from (api_url :: rest) mac) s)
    = (more ++ (now s, api_url +:+ mac) :: http_log s)%list.
Proof.
  cbn [MacVendorLookup._lookup_online_from].
  apply request_then_log.
  intros [|st text json].
  - apply quiet_lookup_online_from.
  - destruct (st =? 200)%Z; [|apply quiet_lookup_online_from].
    destruct (PyStr.contains _ _); [|apply quiet_ret].
    destruct (MacVendorLookup.parse_envelope json);
      [apply quiet_ret|apply quiet_lookup_online_from].
Qed.

Lemma online_first_request oui s :
  exists more,
    http_log (exec (MacVendorLookup._lookup_online oui) s)
    = (more ++ (now s, provider_url 0 oui) :: http_log s)%list.
Proof. apply online_from_first_request. Qed.

(** What a lookup that goes online does to the request log and to
    [last_request_time]. *)
Lemma lookup_miss_log mac s :
  PyStr.nonempty (MacVendorLookup._normalize_mac mac) = true ->
  MacVendorLookup.cache_hit (cache s) (MacVendorLookup._normalize_mac mac) (now s)
    = None ->
  let s' := exec (MacVendorLookup.lookup mac) s in
  exists more t,
    http_log s'
    = (more ++ (t, provider_url 0 (MacVendorLookup._normalize_mac mac))
            :: http_log s)%list
    /\ forall t' u, In (t', u) (more ++ [(t, provider_url 0 (MacVendorLookup._normalize_mac mac))])%list ->
         (last_request_time s + seconds MacVendorLookup.request_interval <= t'
          <= last_request_time s')%Z.
Proof.
  intros Hv Hmiss. cbn zeta. unfold exec. rewrite (lookup_miss _ _ Hv Hmiss).
  cbn zeta. cbn [snd].
  set (oui := MacVendorLookup._normalize_mac mac).
  destruct (before_query_spec s) as (_ & Hlog & _ & _ & _ & _ & _ & Hwait).
  destruct (online_first_request oui (before_query s)) as (more & Hfirst).
  destruct (online_log API_URLS oui (before_query s)) as (new & Hnew & Hbound).
  fold (MacVendorLookup._lookup_online oui) in Hnew, Hbound.
  unfold exec in Hfirst, Hnew, Hbound.
  destruct (MacVendorLookup._lookup_online oui (before_query s)) as [v s3].
  cbn [fst snd] in *.
  destruct (after_query_spec oui (now s) v s3) as (_ & Hl & Hr & _).
  cbn zeta in Hl, Hr. rewrite Hl, Hr.
  exists more, (now (before_query s)). split.
  - rewrite Hfirst, Hlog. reflexivity.
  - intros t' u Hin.
    assert (In (t', u) new) as Hin'.
    { rewrite Hfirst in Hnew.
      change ((now (before_query s), provider_url 0 oui) :: http_log (before_query s))
        with ([(now (before_query s), provider_url 0 oui)] ++ http_log (before_query s))%list
        in Hnew.
      rewrite app_assoc in Hnew. apply app_inv_tail in Hnew. now rewrite <- Hnew. }
    apply Hbound in Hin'. lia.
Qed.

(** *** The online query does not read the cache *)

Lemma before_query_set_cache c s :
  before_query (set_cache c s) = set_cache c (before_query s).
Proof.
  unfold before_query, exec, when, time_sleep, elapse, bind, modify, ret.
  cbn [now last_request_time set_cache].
  destruct (now s - last_request_time s <? _)%Z; reflexivity.
Qed.

Lemma online_from_set_cache urls mac c s :
  MacVendorLookup._lookup_online_from urls mac (set_cache c s) =
  (eval (MacVendorLookup._lookup_online_from urls mac) s,
   set_cache c (exec (MacVendorLookup._lookup_online_from urls mac) s)).
Proof.
  revert s. induction urls as [|api_url rest IH]; intros s; [reflexivity|].
  unfold eval, exec in *. cbn [MacVendorLookup._lookup_online_from].
  unfold bind. rewrite !requests_get_eq.
  cbn [env http_log set_cache now].
  change (exec elapse (set_http_log ((now s, api_url +:+ mac) :: http_log s)
                                    (set_cache c s)))
    with (set_cache c (exec elapse (set_http_log ((now s, api_url +:+ mac)
                                                   :: http_log s) s))).
  set (s1 := exec elapse _).
  destruct (http_server _ _ _) as [|st text json]; [apply IH|].
  destruct (st =? 200)%Z; [|apply IH].
  destruct (PyStr.contains _ _); [|reflexivity].
  destruct (MacVendorLookup.parse_envelope json); [reflexivity|apply IH].
Qed.

(** ** Claims about the vendor cache *)

(** C6.  When the OUI of [mac] has a cache entry, a lookup at an age below
    30 days (2,592,000 s) returns the cached vendor and issues no request;
    at an age of 30 days or more the entry counts for nothing: the lookup
    goes online, starting with the first provider, and returns and requests
    exactly what it would with the entry removed. *)
Theorem C6_cache_ttl (s : Sys) (mac : string) (vendor : pyval) (timestamp : Z) :
  let oui := MacVendorLookup._normalize_mac mac in
  let absent := set_cache (delete oui (cache s)) s in
  PyStr.nonempty oui = true ->
  cache s !! oui = Some (vendor, timestamp) ->
  ((now s - timestamp < seconds 2592000)%Z ->
     eval (MacVendorLookup.lookup mac) s = vendor
     /\ http_log (exec (MacVendorLookup.lookup mac) s) = http_log s
     /\ cache (exec (MacVendorLookup.lookup mac) s) = cache s)
  /\ ((seconds 2592000 <= now s - timestamp)%Z ->
     eval (MacVendorLookup.lookup mac) s = eval (MacVendorLookup.lookup mac) absent
     /\ http_log (exec (MacVendorLookup.lookup mac) s)
        = http_log (exec (MacVendorLookup.lookup mac) absent)
     /\ exists more t,
          http_log (exec (MacVendorLookup.lookup mac) s)
          = (more ++ (t, provider_url 0 oui) :: http_log s)%list).
Proof.
  intros oui absent Hv Hc. split; intros Hage.
  - assert (MacVendorLookup.cache_hit (cache s) oui (now s) = Some vendor) as Hhit.
    { unfold MacVendorLookup.cache_hit. rewrite Hc.
      change (seconds CACHE_EXPIRY) with (seconds 2592000).
      destruct (Z.ltb_spec (now s - timestamp) (seconds 2592000)); [reflexivity|lia]. }
    unfold eval, exec. rewrite (lookup_hit _ _ _ Hv Hhit). cbn. auto.
  - assert (MacVendorLookup.cache_hit (cache s) oui (now s) = None) as Hmiss.
    { unfold MacVendorLookup.cache_hit. rewrite Hc.
      change (seconds CACHE_EXPIRY) with (seconds 2592000).
      destruct (Z.ltb_spec (now s - timestamp) (seconds 2592000)); [lia|reflexivity]. }
    assert (MacVendorLookup.cache_hit (cache absent) oui (now absent) = None) as Hmiss'.
    { unfold MacVendorLookup.cache_hit, absent. cbn [cache set_cache].
      now rewrite lookup_delete_eq. }
    split_and!.
    + unfold eval. rewrite (lookup_miss _ _ Hv Hmiss), (lookup_miss _ _ Hv Hmiss').
      cbn zeta. cbn [fst]. fold oui. unfold absent.
      rewrite before_query_set_cache.
      unfold MacVendorLookup._lookup_online.
      now rewrite online_from_set_cache.
    + unfold exec. rewrite (lookup_miss _ _ Hv Hmiss), (lookup_miss _ _ Hv Hmiss').
      cbn zeta. cbn [fst snd]. fold oui. unfold absent.
      rewrite before_query_set_cache.
      unfold MacVendorLookup._lookup_online.
      rewrite online_from_set_cache. cbn [fst snd].
      match goal with |- http_log (after_query ?a ?b ?c ?d) = http_log (after_query ?a' ?b' ?c' ?d') =>
        destruct (after_query_spec a b c d) as (_ & -> & _);
        destruct (after_query_spec a' b' c' d') as (_ & -> & _) end.
      reflexivity.
    + destruct (lookup_miss_log mac s Hv Hmiss) as (more & t & Hlog & _).
      eauto.
Qed.

Lemma C6_cache_ttl_witness :
  let fresh := sys_cached env_all_down "Acme" (seconds 86400) in
  let stale := sys_cached env_all_down "Acme" (seconds 2592000) in
  PyStr.nonempty (MacVendorLookup._normalize_mac "aa:bb:cc:00:11:22") = true
  /\ cache fresh !! "AABBCC" = Some (PStr "Acme", 0%Z)
  /\ (now fresh - 0 < seconds 2592000)%Z
  /\ (seconds 2592000 <= now stale - 0)%Z
  /\ (eval (MacVendorLookup.lookup "aa:bb:cc:00:11:22") fresh = PStr "Acme"
      /\ http_log (exec (MacVendorLookup.lookup "aa:bb:cc:00:11:22") fresh) = [])
  /\ exists more t,
       http_log (exec (MacVendorLookup.lookup "aa:bb:cc:00:11:22") stale)
       = (more ++ [(t, "https://api.macvendors.com/AABBCC")])%list.
Proof.
  intros fresh stale.
  assert (PyStr.nonempty (MacVendorLookup._normalize_mac "aa:bb:cc:00:11:22") = true)
    as Hv by reflexivity.
  assert (cache fresh !! "AABBCC" = Some (PStr "Acme", 0%Z)) as Hc by reflexivity.
  assert (cache stale !! "AABBCC" = Some (PStr "Acme", 0%Z)) as Hc' by reflexivity.
  assert (now fresh - 0 < seconds 2592000)%Z as Hf by (vm_compute; reflexivity).
  assert (seconds 2592000 <= now stale - 0)%Z as Hs by (vm_compute; discriminate).
  destruct (C6_cache_ttl fresh "aa:bb:cc:00:11:22" (PStr "Acme") 0 Hv Hc)
    as [Hfresh _].
  destruct (Hfresh Hf) as (H1 & H2 & _).
  split_and!; try assumption.
  destruct (C6_cache_ttl stale "aa:bb:cc:00:11:22" (PStr "Acme") 0 Hv Hc') as [_ H].
    destruct (H Hs) as (_ & _ & H3). exact H3.
Defined.

(** *** Provider order *)

Lemma online_first_200 oui s text json :
  http_server (env s) (length (http_log s)) (provider_url 0 oui)
    = HttpResponse 200 text json ->
  MacVendorLookup._lookup_online oui s =
  (PStr (PyStr.strip text), exec (requests_get (provider_url 0 oui)) s).
Proof.
  intros H. unfold MacVendorLookup._lookup_online, API_URLS.
  cbn [MacVendorLookup._lookup_online_from]. unfold bind at 1, exec.
  rewrite requests_get_eq. cbn [snd].
  change ("https://api.macvendors.com/" +:+ oui) with (provider_url 0 oui).
  rewrite H. reflexivity.
Qed.

Lemma online_fallback oui s text json vendor :
  declines (nth 0 API_URLS "")
    (http_server (env s) (length (http_log s)) (provider_url 0 oui)) = true ->
  http_server (env s) (S (length (http_log s))) (provider_url 1 oui)
    = HttpResponse 200 text json ->
  MacVendorLookup.parse_envelope json = Some vendor ->
  MacVendorLookup._lookup_online oui s =
  (vendor, exec (requests_get (provider_url 1 oui))
                (exec (requests_get (provider_url 0 oui)) s)).
Proof.
  intros H1 H2 Hp. unfold MacVendorLookup._lookup_online, API_URLS.
  rewrite online_declined by exact H1.
  change ("https://api.macvendors.com/" +:+ oui) with (provider_url 0 oui).
  set (s1 := exec (requests_get (provider_url 0 oui)) s).
  cbn [MacVendorLookup._lookup_online_from]. unfold bind at 1, exec.
  rewrite requests_get_eq. cbn [snd].
  change ("https://api.maclookup.app/v2/macs/" +:+ oui) with (provider_url 1 oui).
  assert (env s1 = env s /\ http_log s1 = (now s, provider_url 0 oui) :: http_log s)
    as [He Hl] by (split; reflexivity).
  rewrite He, Hl. cbn [length]. rewrite H2.
  cbn [Z.eqb Pos.eqb]. 
  change (PyStr.contains "maclookup.app" "https://api.maclookup.app/v2/macs/")
    with true. cbn iota. rewrite Hp. reflexivity.
Qed.

(** C7.  On a cache miss the providers are asked in the order of
    [API_URLS].  When the first answers HTTP 200 its stripped text body is
    the result and the second is not asked.  When the first fails (the
    request raises or the status is not 200) and the second answers HTTP 200 with an envelope whose success flag is set and
    whose data holds a vendor, that vendor is the result; it is stored in
    the cache under the OUI, and the cache file holds the new cache once the
    write went through.  The scenario of the spec (HTTP 500, then the Acme
    envelope) is the witness. *)
Theorem C7_provider_fallback (s : Sys) (mac : string) :
  let oui := MacVendorLookup._normalize_mac mac in
  let s' := exec (MacVendorLookup.lookup mac) s in
  let n := length (http_log s) in
  PyStr.nonempty oui = true ->
  MacVendorLookup.cache_hit (cache s) oui (now s) = None ->
  (forall text json,
      http_server (env s) n (provider_url 0 oui) = HttpResponse 200 text json ->
      eval (MacVendorLookup.lookup mac) s = PStr (PyStr.strip text)
      /\ exists t, http_log s' = (t, provider_url 0 oui) :: http_log s)
  /\ (forall text2 vendor rest,
      declines (nth 0 API_URLS "")
        (http_server (env s) n (provider_url 0 oui)) = true ->
      http_server (env s) (S n) (provider_url 1 oui)
        = HttpResponse 200 text2
            (Some (PDict (("success", PBool true)
                          :: ("data", PDict [("vendor", vendor)]) :: rest))) ->
      eval (MacVendorLookup.lookup mac) s = vendor
      /\ (exists t1 t2,
            http_log s' = (t2, provider_url 1 oui) :: (t1, provider_url 0 oui)
                          :: http_log s
            /\ (t1 <= t2)%Z)
      /\ (truthy vendor = true ->
          cache s' = <[oui := (vendor, now s)]> (cache s)
          /\ (disk (env s) (disk_writes s) = WriteOk ->
              cache_file s' = FileData (cache s')))).
Proof.
  intros oui s' n Hv Hmiss.
  destruct (before_query_spec s) as (He & Hl & Hc & _ & _ & Hw & _ & _).
  split.
  - intros text json H.
    subst s'. unfold eval, exec. rewrite (lookup_miss _ _ Hv Hmiss).
    cbn zeta. fold oui.
    rewrite (online_first_200 oui (before_query s) text json)
      by (rewrite He, Hl; exact H).
    cbn [fst snd]. split; [reflexivity|].
    match goal with |- context [after_query ?a ?b ?c ?d] =>
      destruct (after_query_spec a b c d) as (_ & -> & _) end.
    exists (now (before_query s)). unfold exec. rewrite requests_get_eq.
    cbn. now rewrite Hl.
  - intros text2 vendor rest H1 H2.
    subst s'. unfold eval, exec. rewrite (lookup_miss _ _ Hv Hmiss).
    cbn zeta. fold oui.
    rewrite (online_fallback oui (before_query s) text2
               (Some (PDict (("success", PBool true)
                             :: ("data", PDict [("vendor", vendor)]) :: rest)))
               vendor).
    + cbn [fst snd].
      match goal with |- context [after_query ?a ?b ?c ?d] =>
        destruct (after_query_spec a b c d) as (He' & Hl' & _ & _ & Hc' & _ & Hf') end.
      cbn zeta in *. rewrite Hl'. split; [reflexivity|]. split.
      * exists (now (before_query s)),
               (now (exec (requests_get (provider_url 0 oui)) (before_query s))).
        split.
        -- unfold exec. rewrite !requests_get_eq. cbn. now rewrite Hl.
        -- destruct (quiet_requests_get (provider_url 0 oui) (before_query s))
             as ((_ & Hle & _) & _). exact Hle.
      * intros Ht. rewrite Ht in Hc'. specialize (Hf' Ht) as [_ Hf'].
        split.
        -- rewrite Hc'. unfold exec. rewrite !requests_get_eq. cbn. now rewrite Hc.
        -- intros Hok. rewrite Hf'. unfold exec. rewrite !requests_get_eq. cbn.
           rewrite He, Hw, Hok. reflexivity.
    + rewrite He, Hl. exact H1.
    + rewrite He, Hl. exact H2.
    + cbn. destruct vendor; reflexivity.
Qed.

Lemma C7_provider_fallback_witness :
  let s := sys_fresh env_fallback (seconds 1700000000) in
  let mac := "aa:bb:cc:00:11:22" in
  let s' := exec (MacVendorLookup.lookup mac) s in
  (PyStr.nonempty (MacVendorLookup._normalize_mac mac) = true
   /\ MacVendorLookup.cache_hit (cache s) "AABBCC" (now s) = None
   /\ http_server (env s) 0 "https://api.macvendors.com/AABBCC"
      = HttpResponse 500 "Internal Server Error" None
   /\ http_server (env s) 1 "https://api.maclookup.app/v2/macs/AABBCC"
      = HttpResponse 200 "" (Some acme_envelope)
   /\ disk (env s) (disk_writes s) = WriteOk)
  /\ eval (MacVendorLookup.lookup mac) s = PStr "Acme"
  /\ cache s' !! "AABBCC" = Some (PStr "Acme", now s)
  /\ cache_file s' = FileData (cache s').
Proof.
  intros s mac s'.
  assert (PyStr.nonempty (MacVendorLookup._normalize_mac mac) = true) as Hv
    by reflexivity.
  assert (MacVendorLookup.cache_hit (cache s) "AABBCC" (now s) = None) as Hmiss
    by reflexivity.
  split; [split_and!; reflexivity|].
  destruct (C7_provider_fallback s mac Hv Hmiss) as [_ H].
  destruct (H "" (PStr "Acme") [] eq_refl eq_refl) as (Hr & _ & Hc).
  destruct (Hc eq_refl) as [Hc1 Hc2].
  split; [exact Hr|]. split.
  - unfold s'. rewrite Hc1. apply lookup_insert_eq.
  - apply Hc2. reflexivity.
Defined.

Lemma lookup_hit_quiet mac s v :
  PyStr.nonempty (MacVendorLookup._normalize_mac mac) = true ->
  MacVendorLookup.cache_hit (cache s) (MacVendorLookup._normalize_mac mac) (now s)
    = Some v ->
  eval (MacVendorLookup.lookup mac) s = v
  /\ http_log (exec (MacVendorLookup.lookup mac) s) = http_log s.
Proof.
  intros Hv Hhit. unfold eval, exec. rewrite (lookup_hit _ _ _ Hv Hhit).
  split; reflexivity.
Qed.

(** *** Exhausted providers *)

Lemma lookup_all_fail mac s :
  let oui := MacVendorLookup._normalize_mac mac in
  let s' := exec (MacVendorLookup.lookup mac) s in
  PyStr.nonempty oui = true ->
  MacVendorLookup.cache_hit (cache s) oui (now s) = None ->
  all_providers_fail (env s) ->
  eval (MacVendorLookup.lookup mac) s = PStr "Unknown"
  /\ cache s' = <[oui := (PStr "Unknown", now s)]> (cache s)
  /\ (disk (env s) (disk_writes s) = WriteOk -> cache_file s' = FileData (cache s')).
Proof.
  intros oui s' Hv Hmiss Hall.
  destruct (before_query_spec s) as (He & Hl & Hc & _ & _ & Hw & _ & _).
  assert (eval (MacVendorLookup._lookup_online oui) (before_query s) = PStr "Unknown")
    as Hun.
  { apply online_all_fail; [now rewrite He|]. intros u Hu. exact Hu. }
  destruct (quiet_lookup_online_from API_URLS oui (before_query s))
    as ((He3 & _) & Hc3 & _ & _ & Hw3).
  fold (MacVendorLookup._lookup_online oui) in He3, Hc3, Hw3.
  subst s'. unfold eval, exec in *. rewrite (lookup_miss _ _ Hv Hmiss).
  cbn zeta. fold oui. cbn [fst snd]. rewrite Hun.
  match goal with |- context [after_query ?a ?b ?c ?d] =>
    destruct (after_query_spec a b c d) as (_ & _ & _ & _ & Hc' & _ & Hf') end.
  cbn zeta in *. destruct (Hf' eq_refl) as [_ Hf].
  split; [reflexivity|]. split.
  - rewrite Hc'. cbn [truthy PyStr.nonempty]. now rewrite Hc3, Hc.
  - intros Hok. rewrite Hf, He3, Hw3, He, Hw, Hok. reflexivity.
Qed.

(** C1 (the code departs from the claim).  Both providers answer HTTP 500
    to a process with an empty cache.  The lookup returns ["Unknown"] after
    two requests, and stores ["Unknown"] under the OUI, in the cache and in
    the cache file; the next lookup of the same MAC is served from the cache
    and sends no request. *)
Theorem C1_unknown_is_cached :
  let s0 := sys_fresh env_all_down (seconds 1700000000) in
  let mac := "AA:BB:CC:00:11:22" in
  let s1 := exec (MacVendorLookup.lookup mac) s0 in
  let s2 := exec (MacVendorLookup.lookup mac) s1 in
  all_providers_fail (env s0)
  /\ cache s0 !! "AABBCC" = None
  /\ eval (MacVendorLookup.lookup mac) s0 = PStr "Unknown"
  /\ length (http_log s1) = 2%nat
  /\ cache s1 !! "AABBCC" = Some (PStr "Unknown", now s0)
  /\ cache_file s1 = FileData {[ "AABBCC" := (PStr "Unknown", now s0) ]}
  /\ eval (MacVendorLookup.lookup mac) s1 = PStr "Unknown"
  /\ http_log s2 = http_log s1.
Proof.
  intros s0 mac s1 s2.
  assert (all_providers_fail (env s0)) as Hall by (intros n u m _; reflexivity).
  destruct (lookup_all_fail mac s0 eq_refl eq_refl Hall) as (Hr & Hc & Hf).
  fold s1 in Hc, Hf.
  assert (cache s1 !! "AABBCC" = Some (PStr "Unknown", now s0)) as Hc1.
  { rewrite Hc. apply lookup_insert_eq. }
  assert (MacVendorLookup.cache_hit (cache s1)
            (MacVendorLookup._normalize_mac mac) (now s1) = Some (PStr "Unknown"))
    as Hhit.
  { unfold MacVendorLookup.cache_hit.
    change (MacVendorLookup._normalize_mac mac) with "AABBCC". rewrite Hc1.
    vm_compute. reflexivity. }
  split_and!.
  - exact Hall.
  - reflexivity.
  - exact Hr.
  - vm_compute. reflexivity.
  - exact Hc1.
  - rewrite (Hf eq_refl), Hc. reflexivity.
  - exact (proj1 (lookup_hit_quiet mac s1 _ eq_refl Hhit)).
  - exact (proj2 (lookup_hit_quiet mac s1 _ eq_refl Hhit)).
Qed.

(** *** Spacing of requests *)

(** C9, as stated, fails: the two providers are asked one right after the
    other.  With both providers answering HTTP 500 within 0.2 s, one lookup
    issues two requests 0.2 s apart. *)
Lemma C9_back_to_back_requests :
  ~ calls_one_second_apart
      (http_log (exec (MacVendorLookup.lookup "AA:BB:CC:00:11:22")
                      (sys_fresh env_all_down (seconds 1700000000)))).
Proof.
  assert (http_log (exec (MacVendorLookup.lookup "AA:BB:CC:00:11:22")
                         (sys_fresh env_all_down (seconds 1700000000)))
          = [ (1700000000400000%Z, "https://api.maclookup.app/v2/macs/AABBCC");
              (1700000000200000%Z, "https://api.macvendors.com/AABBCC") ]) as ->
    by (vm_compute; reflexivity).
  intros H.
  specialize (H 0%nat 1%nat _ _ _ _ ltac:(discriminate) eq_refl eq_refl).
  unfold seconds in H. lia.
Qed.

(** C9, amended.  For one caller after the other (the code takes no lock):
    every request a lookup issues is issued at least one second after
    [last_request_time], the moment the previous online query returned,
    hence at least one second after every request of the earlier lookups;
    and the property that makes this so is kept by every lookup. *)
Theorem C9_lookups_are_paced (s : Sys) (mac : string) :
  let s' := exec (MacVendorLookup.lookup mac) s in
  paced s ->
  paced s'
  /\ exists new,
       http_log s' = (new ++ http_log s)%list
       /\ forall t u, In (t, u) new ->
            (last_request_time s + seconds 1 <= t)%Z
            /\ forall t0 u0, In (t0, u0) (http_log s) -> (t0 + seconds 1 <= t)%Z.
Proof.
  intros s' Hp.
  destruct (PyStr.nonempty (MacVendorLookup._normalize_mac mac)) eqn:Hv.
  - destruct (MacVendorLookup.cache_hit (cache s)
                (MacVendorLookup._normalize_mac mac) (now s)) as [v|] eqn:Hhit.
    + subst s'. unfold exec. rewrite (lookup_hit _ _ _ Hv Hhit). cbn.
      split; [exact Hp|]. exists []. split; [reflexivity|]. intros ? ? [].
    + destruct (lookup_miss_log mac s Hv Hhit) as (more & t & Hlog & Hb).
      fold s' in Hlog, Hb.
      change (seconds MacVendorLookup.request_interval) with (seconds 1) in Hb.
      assert (forall t0 u0, In (t0, u0) (http_log s') -> (t0 <= last_request_time s')%Z)
        as Hp'.
      { intros t0 u0 Hin. rewrite Hlog in Hin.
        change ((t, provider_url 0 (MacVendorLookup._normalize_mac mac)) :: http_log s)
          with ([(t, provider_url 0 (MacVendorLookup._normalize_mac mac))]
                ++ http_log s)%list in Hin.
        rewrite app_assoc in Hin. apply in_app_or in Hin as [Hin|Hin].
        - apply Hb in Hin. lia.
        - apply Hp in Hin.
          assert (In (t, provider_url 0 (MacVendorLookup._normalize_mac mac))
                     (more ++ [(t, provider_url 0 (MacVendorLookup._normalize_mac mac))])%list)
            as Hone by (apply in_or_app; right; now left).
          apply Hb in Hone. unfold seconds in Hone. lia. }
      split; [exact Hp'|].
      exists (more ++ [(t, provider_url 0 (MacVendorLookup._normalize_mac mac))])%list.
      split; [now rewrite <- app_assoc|].
      intros t1 u1 Hin. apply Hb in Hin. split; [lia|].
      intros t0 u0 Hin0. apply Hp in Hin0. lia.
  - subst s'. unfold exec. rewrite (lookup_invalid _ _ Hv). cbn.
    split; [exact Hp|]. exists []. split; [reflexivity|]. intros ? ? [].
Qed.

Lemma C9_lookups_are_paced_witness :
  let s := sys_fresh env_all_down (seconds 1700000000) in
  let s1 := exec (MacVendorLookup.lookup "AA:BB:CC:00:11:22") s in
  let s2 := exec (MacVendorLookup.lookup "11:22:33:44:55:66") s1 in
  paced s
  /\ paced s1
  /\ exists new,
       http_log s2 = (new ++ http_log s1)%list
       /\ forall t u, In (t, u) new ->
            (last_request_time s1 + seconds 1 <= t)%Z
            /\ forall t0 u0, In (t0, u0) (http_log s1) -> (t0 + seconds 1 <= t)%Z.
Proof.
  intros s s1 s2.
  assert (paced s) as Hp by (intros t u []).
  destruct (C9_lookups_are_paced s "AA:BB:CC:00:11:22" Hp) as [Hp1 _].
  destruct (C9_lookups_are_paced s1 "11:22:33:44:55:66" Hp1) as [_ H2].
  split; [exact Hp|]. split; [exact Hp1|]. exact H2.
Defined.

(** ** The passive inventory *)

Lemma lookup_now_mono mac s :
  (now s <= now (exec (MacVendorLookup.lookup mac) s))%Z.
Proof.
  destruct (PyStr.nonempty (MacVendorLookup._normalize_mac mac)) eqn:Hv.
  - destruct (MacVendorLookup.cache_hit (cache s)
                (MacVendorLookup._normalize_mac mac) (now s)) as [v|] eqn:Hhit.
    + unfold exec. rewrite (lookup_hit _ _ _ Hv Hhit). cbn. lia.
    + unfold exec. rewrite (lookup_miss _ _ Hv Hhit). cbn zeta. cbn [snd].
      destruct (before_query_spec s) as (_ & _ & _ & _ & _ & _ & H1 & _).
      destruct (quiet_lookup_online_from API_URLS
                  (MacVendorLookup._normalize_mac mac) (before_query s))
        as ((_ & H2 & _) & _).
      fold (MacVendorLookup._lookup_online (MacVendorLookup._normalize_mac mac)) in H2.
      unfold exec in H2.
      match goal with |- context [after_query ?a ?b ?c ?d] =>
        destruct (after_query_spec a b c d) as (_ & _ & _ & H3 & _) end.
      cbn zeta in H3. lia.
  - unfold exec. rewrite (lookup_invalid _ _ Hv). cbn. lia.
Qed.

Lemma resolve_vendor_frame mac device_type w :
  let w' := exec (resolve_vendor mac device_type) w in
  discovered_devices w' = discovered_devices w
  /\ monitored w' = monitored w
  /\ id_source w' = id_source w
  /\ (now (sys w) <= now (sys w'))%Z.
Proof.
  unfold resolve_vendor, exec, bind, lift.
  pose proof (lookup_now_mono mac (sys w)) as Hm. unfold exec in Hm.
  destruct (MacVendorLookup.lookup mac (sys w)) as [v s']. cbn [snd] in Hm.
  destruct (differs_from_str _ _);
    [destruct (MacVendorLookup.get_device_type _)|]; cbn; auto.
Qed.

Lemma extract_device_info_spec entry w :
  let r := extract_device_info entry (entry_source entry)
             (match entry with
              | OfArp e => ArpEntry.device_id e
              | OfLease l => DHCPLease.device_id l
              end) w in
  created_at entry (now (sys w)) (fst r)
  /\ discovered_devices (snd r) = discovered_devices w
  /\ monitored (snd r) = monitored w
  /\ id_source (snd r) = id_source w
  /\ (now (sys w) <= now (sys (snd r)))%Z.
Proof.
  intros r. subst r.
  unfold extract_device_info, lift, time_time, elapse.
  unfold bind, gets, modify, ret. cbn [fst snd].
  set (w1 := set_sys _ w).
  assert (discovered_devices w1 = discovered_devices w /\ monitored w1 = monitored w
          /\ id_source w1 = id_source w /\ (now (sys w) <= now (sys w1))%Z)
    as (Hd & Hm & Hi & Hn) by (subst w1; cbn; repeat split; lia).
  destruct (String.eqb (str_or (entry_vendor entry) "Unknown") "Unknown"
            && PyStr.nonempty (PyStr.upper (entry_mac_address entry)))%bool.
  - pose proof (resolve_vendor_frame (PyStr.upper (entry_mac_address entry))
                  (str_or (entry_device_type entry) "Unknown") w1) as Hr.
    cbn zeta in Hr. unfold exec in Hr.
    destruct (resolve_vendor _ _ w1) as [vd w2]. cbn [fst snd] in *.
    destruct Hr as (Hd2 & Hm2 & Hi2 & Hn2).
    split; [destruct entry; repeat split|].
    split_and!; try congruence; lia.
  - cbn [fst snd]. split; [destruct entry; repeat split|].
    split_and!; try congruence; lia.
Qed.

Lemma body_spec now0 entry st w :
  match key_of entry with
  | None => body now0 entry st w = (st, w)
  | Some k =>
      match discovered_devices w !! k with
      | Some d =>
          body now0 entry st w =
          ((fst st, snd st ∪ {[k]}),
           set_discovered (<[k := update now0 entry d]> (discovered_devices w)) w)
      | None =>
          exists dc w1,
            created_at entry (now (sys w)) dc
            /\ discovered_devices w1 = discovered_devices w
            /\ monitored w1 = monitored w
            /\ id_source w1 = id_source w
            /\ (now (sys w) <= now (sys w1))%Z
            /\ body now0 entry st w =
               (((fst st ++ [k])%list, snd st ∪ {[k]}),
                set_discovered (<[k := dc]> (discovered_devices w)) w1)
      end
  end.
Proof.
  unfold key_of.
  destruct entry as [e|l]; cbn [body entry_mac_address].
  - unfold arp_body.
    destruct (PyStr.nonempty (ArpEntry.mac_address e)); cbn [negb]; [|reflexivity].
    unfold bind, gets, store_device, modify, ret. cbn beta.
    destruct (discovered_devices w !! PyStr.upper (ArpEntry.mac_address e)) as [d|] eqn:E.
    + reflexivity.
    + pose proof (extract_device_info_spec (OfArp e) w) as H.
      cbn zeta in H. cbn [entry_source] in H.
      destruct (extract_device_info _ _ _ w) as [dc w1]. cbn [fst snd] in H.
      destruct H as (H1 & H2 & H3 & H4 & H5).
      exists dc, w1. rewrite H2. auto 10.
  - unfold dhcp_body.
    destruct (PyStr.nonempty (DHCPLease.mac_address l)); cbn [negb]; [|reflexivity].
    unfold bind, gets, store_device, modify, ret. cbn beta.
    destruct (discovered_devices w !! PyStr.upper (DHCPLease.mac_address l)) as [d|] eqn:E.
    + reflexivity.
    + pose proof (extract_device_info_spec (OfLease l) w) as H.
      cbn zeta in H. cbn [entry_source] in H.
      destruct (extract_device_info _ _ _ w) as [dc w1]. cbn [fst snd] in H.
      destruct H as (H1 & H2 & H3 & H4 & H5).
      exists dc, w1. rewrite H2. auto 10.
Qed.

Lemma key_outcome_weaken now0 es tlo tlo' thi before after :
  (tlo <= tlo')%Z ->
  key_outcome now0 es tlo' thi before after ->
  key_outcome now0 es tlo thi before after.
Proof.
  intros Hle. unfold key_outcome. destruct before; [auto|].
  destruct es; [auto|]. intros (dc & t & H1 & H2 & H3).
  exists dc, t. split; [exact H1|]. split; [lia|exact H3].
Qed.

Lemma rows_for_cons k e l :
  rows_for k (e :: l) =
  if bool_decide (key_of e = Some k) then e :: rows_for k l else rows_for k l.
Proof. reflexivity. Qed.

Lemma observed_cons e l :
  observed (e :: l) =
  match key_of e with
  | Some k => {[k]} ∪ observed l
  | None => observed l
  end.
Proof. unfold observed. cbn. destruct (key_of e); reflexivity. Qed.

(** The loops, seen from one key. *)
Lemma loop_key_spec now0 k l :
  forall st w,
    let r := for_each (body now0) l st w in
    monitored (snd r) = monitored w
    /\ id_source (snd r) = id_source w
    /\ (now (sys w) <= now (sys (snd r)))%Z
    /\ snd (fst r) = snd st ∪ observed l
    /\ key_outcome now0 (rows_for k l) (now (sys w)) (now (sys (snd r)))
         (discovered_devices w !! k) (discovered_devices (snd r) !! k).
Proof.
  induction l as [|e l IH]; intros st w; cbn zeta.
  - cbn. split_and!; try reflexivity; try lia.
    + set_solver.
    + unfold key_outcome. destruct (discovered_devices w !! k); reflexivity.
  - cbn [for_each]. unfold bind.
    pose proof (body_spec now0 e st w) as Hb.
    rewrite rows_for_cons, observed_cons.
    destruct (key_of e) as [ke|] eqn:Hke.
    + destruct (discovered_devices w !! ke) as [d|] eqn:Hd.
      * rewrite Hb. specialize (IH (fst st, snd st ∪ {[ke]})
          (set_discovered (<[ke := update now0 e d]> (discovered_devices w)) w)).
        cbn zeta in IH. destruct IH as (I1 & I2 & I3 & I4 & I5).
        cbn [monitored id_source sys set_discovered discovered_devices snd] in *.
        split_and!; try assumption.
        { rewrite I4. set_solver. }
        case_bool_decide as Hk.
        -- inversion Hk; subst ke. rewrite lookup_insert_eq in I5.
           rewrite Hd. cbn [key_outcome] in *. exact I5.
        -- assert (ke <> k) by congruence.
           rewrite lookup_insert_ne in I5 by assumption. exact I5.
      * destruct Hb as (dc & w1 & Hc & H1 & H2 & H3 & H4 & Hb). rewrite Hb.
        specialize (IH ((fst st ++ [ke])%list, snd st ∪ {[ke]})
          (set_discovered (<[ke := dc]> (discovered_devices w)) w1)).
        cbn zeta in IH. destruct IH as (I1 & I2 & I3 & I4 & I5).
        cbn [monitored id_source sys set_discovered discovered_devices snd] in *.
        split_and!; try congruence; try lia.
        { rewrite I4. set_solver. }
        case_bool_decide as Hk.
        -- inversion Hk; subst ke. rewrite lookup_insert_eq in I5.
           rewrite Hd. cbn [key_outcome] in *.
           exists dc, (now (sys w)). split_and!; auto; lia.
        -- assert (ke <> k) by congruence.
           rewrite lookup_insert_ne in I5 by assumption.
           eapply key_outcome_weaken; [|exact I5]. exact H4.
    + rewrite Hb. specialize (IH st w). cbn zeta in IH.
      case_bool_decide as Hk; [congruence|]. exact IH.
Qed.

Lemma evict_lookup now0 macs inv k :
  evict now0 macs inv !! k = after_eviction now0 k macs (inv !! k).
Proof.
  unfold evict, after_eviction. rewrite map_lookup_filter.
  destruct (inv !! k) as [d|]; [|reflexivity]. cbn.
  destruct (decide (inactive now0 macs (k, d))); case_guard; try reflexivity;
    contradiction.
Qed.

Lemma for_each_app {S A B} (f : A -> B -> St S B) l1 l2 st s :
  for_each f (l1 ++ l2)%list st s =
  let r := for_each f l1 st s in for_each f l2 (fst r) (snd r).
Proof.
  revert st s. induction l1 as [|x l1 IH]; intros st s; [reflexivity|].
  cbn [for_each app]. unfold bind.
  destruct (f x st s) as [st1 s1]. apply IH.
Qed.

Lemma for_each_arp now0 l st w :
  for_each (arp_body now0) l st w = for_each (body now0) (map OfArp l) st w.
Proof.
  revert st w. induction l as [|x l IH]; intros st w; [reflexivity|].
  cbn [for_each map body]. unfold bind.
  destruct (arp_body now0 x st w) as [st1 w1]. apply IH.
Qed.

Lemma for_each_dhcp now0 l st w :
  for_each (dhcp_body now0) l st w = for_each (body now0) (map OfLease l) st w.
Proof.
  revert st w. induction l as [|x l IH]; intros st w; [reflexivity|].
  cbn [for_each map body]. unfold bind.
  destruct (dhcp_body now0 x st w) as [st1 w1]. apply IH.
Qed.

Lemma detect_new_devices_eq ds w :
  exec (detect_new_devices ds) w =
  let now0 := now (sys w) in
  let r := for_each (body now0) (feed ds) ([], ∅) (pass_started w) in
  set_discovered (evict now0 (snd (fst r)) (discovered_devices (snd r))) (snd r).
Proof.
  unfold detect_new_devices, exec. unfold bind at 1.
  unfold lift at 1, time_time, bind at 1, gets. cbn [fst snd].
  unfold bind at 1. cbn [elapse modify ret fst snd].
  cbn zeta. unfold feed. rewrite for_each_app. cbn zeta.
  rewrite <- for_each_arp. unfold pass_started, exec. cbn [elapse modify snd].
  unfold bind at 1.
  destruct (for_each (arp_body (now (sys w))) _ _ _) as [st1 w1]. cbn [fst snd].
  rewrite <- for_each_dhcp. unfold bind at 1.
  destruct (for_each (dhcp_body (now (sys w))) _ _ _) as [st2 w2]. cbn [fst snd].
  reflexivity.
Qed.

(** One pass, seen from one key. *)
Lemma detect_key_spec ds w k :
  let now0 := now (sys w) in
  let w' := exec (detect_new_devices ds) w in
  monitored w' = monitored w
  /\ id_source w' = id_source w
  /\ (now0 <= now (sys w'))%Z
  /\ exists mid,
       key_outcome now0 (rows_for k (feed ds)) now0 (now (sys w'))
         (discovered_devices w !! k) mid
       /\ discovered_devices w' !! k
          = after_eviction now0 k (observed (feed ds)) mid.
Proof.
  cbn zeta. rewrite detect_new_devices_eq. cbn zeta.
  pose proof (loop_key_spec (now (sys w)) k (feed ds) ([], ∅) (pass_started w)) as H.
  cbn zeta in H.
  destruct (for_each _ _ _ _) as [st' w1]. cbn [fst snd] in *.
  destruct H as (H1 & H2 & H3 & H4 & H5).
  cbn [monitored id_source sys set_discovered discovered_devices pass_started set_sys] in *.
  assert (now (sys w) <= now (exec elapse (sys w)))%Z as Hn by (cbn; lia).
  split_and!; try assumption; try lia.
  exists (discovered_devices w1 !! k). split.
  - eapply key_outcome_weaken; [|exact H5]. exact Hn.
  - rewrite evict_lookup, H4. f_equal. set_solver.
Qed.

(** *** What the updates keep and what they set *)

Lemma update_first_seen now0 e d :
  Discovered.first_seen (update now0 e d) = Discovered.first_seen d.
Proof.
  destruct e as [a|l]; cbn; [reflexivity|].
  unfold dhcp_update. cbn.
  destruct (str_truthy (DHCPLease.hostname l) && _)%bool; reflexivity.
Qed.

Lemma update_last_seen now0 e d :
  Discovered.last_seen (update now0 e d) = now0.
Proof.
  destruct e as [a|l]; cbn; [reflexivity|].
  unfold dhcp_update. cbn.
  destruct (str_truthy (DHCPLease.hostname l) && _)%bool; reflexivity.
Qed.

Lemma update_is_new now0 e d :
  Discovered.is_new (update now0 e d)
  = total_seconds_lt (now0 - Discovered.first_seen d) NEW_DEVICE_THRESHOLD.
Proof.
  destruct e as [a|l]; cbn; [reflexivity|].
  unfold dhcp_update. cbn.
  destruct (str_truthy (DHCPLease.hostname l) && _)%bool; reflexivity.
Qed.

Lemma update_hostname now0 e d :
  Discovered.hostname (update now0 e d) =
  match e with
  | OfArp _ => Discovered.hostname d
  | OfLease l =>
      if (str_truthy (DHCPLease.hostname l)
          && negb (str_truthy (Discovered.hostname d)))%bool
      then DHCPLease.hostname l
      else Discovered.hostname d
  end.
Proof.
  destruct e as [a|l]; cbn; [reflexivity|].
  unfold dhcp_update. cbn.
  destruct (str_truthy (DHCPLease.hostname l) && _)%bool; reflexivity.
Qed.

Lemma replay_snoc now0 es e d :
  replay now0 (es ++ [e])%list d = update now0 e (replay now0 es d).
Proof. unfold replay. now rewrite fold_left_app. Qed.

Lemma replay_first_seen now0 es d :
  Discovered.first_seen (replay now0 es d) = Discovered.first_seen d.
Proof.
  induction es as [|e es IH] using rev_ind; [reflexivity|].
  now rewrite replay_snoc, update_first_seen.
Qed.

Lemma replay_last now0 es d :
  es <> [] ->
  Discovered.last_seen (replay now0 es d) = now0
  /\ Discovered.is_new (replay now0 es d)
     = total_seconds_lt (now0 - Discovered.first_seen d) NEW_DEVICE_THRESHOLD.
Proof.
  destruct es as [|e es _] using rev_ind; [congruence|]. intros _.
  rewrite replay_snoc, update_last_seen, update_is_new, replay_first_seen.
  split; reflexivity.
Qed.

Lemma key_of_arp_hostname now0 es d :
  Forall (fun e => exists a, e = OfArp a) es ->
  Discovered.hostname (replay now0 es d) = Discovered.hostname d.
Proof.
  induction es as [|e es IH] using rev_ind; [reflexivity|].
  intros H. apply Forall_app in H as [H1 H2].
  rewrite replay_snoc, update_hostname.
  apply Forall_inv in H2 as [a ->]. auto.
Qed.

(** The hostname after the updates of [es]: the one before, or, when that
    one was empty, the non-empty hostname of a lease among [es]. *)
Lemma replay_hostname now0 es d :
  Discovered.hostname (replay now0 es d) = Discovered.hostname d
  \/ (str_truthy (Discovered.hostname d) = false
      /\ str_truthy (Discovered.hostname (replay now0 es d)) = true
      /\ exists l, In (OfLease l) es
                   /\ DHCPLease.hostname l = Discovered.hostname (replay now0 es d)).
Proof.
  induction es as [|e es IH] using rev_ind; [now left|].
  rewrite replay_snoc, update_hostname.
  destruct e as [a|l].
  - destruct IH as [IH|(H1 & H2 & l & Hin & Hl)]; [now left|right].
    split_and!; auto. exists l. split; [apply in_or_app; now left|assumption].
  - destruct (str_truthy (DHCPLease.hostname l)) eqn:Hl; cbn [andb].
    + destruct (str_truthy (Discovered.hostname (replay now0 es d))) eqn:Hr; cbn [negb].
      * destruct IH as [IH|(H1 & H2 & l' & Hin & Hl')]; [now left|right].
        split_and!; auto. exists l'. split; [apply in_or_app; now left|assumption].
      * right. destruct IH as [IH|(H1 & H2 & _)]; [|congruence].
        rewrite IH in Hr. split_and!; auto.
        exists l. split; [apply in_or_app; right; now left|reflexivity].
    + destruct IH as [IH|(H1 & H2 & l' & Hin & Hl')]; [now left|right].
      split_and!; auto. exists l'. split; [apply in_or_app; now left|assumption].
Qed.

Lemma rows_for_observed k l : rows_for k l <> [] <-> k ∈ observed l.
Proof.
  induction l as [|e l IH].
  - cbn. split; [congruence|]. unfold observed. cbn. set_solver.
  - rewrite rows_for_cons, observed_cons. case_bool_decide as Hk.
    + rewrite Hk. split; [set_solver|congruence].
    + destruct (key_of e) as [ke|]; [|exact IH].
      rewrite IH. assert (ke <> k) by congruence. set_solver.
Qed.

Lemma rows_for_In k l e : In e (rows_for k l) <-> In e l /\ key_of e = Some k.
Proof.
  unfold rows_for. rewrite filter_In. now rewrite bool_decide_eq_true.
Qed.

Lemma after_eviction_observed now0 k macs o :
  k ∈ macs -> after_eviction now0 k macs o = o.
Proof.
  intros Hin. destruct o as [d|]; [|reflexivity]. cbn.
  destruct (decide _) as [[_ Hn]|]; [contradiction|reflexivity].
Qed.

Lemma sleep_frame d w :
  let w' := exec (lift (time_sleep d)) w in
  discovered_devices w' = discovered_devices w /\ monitored w' = monitored w.
Proof. cbn. auto. Qed.

Lemma pass_first_seen ds w k d d' :
  discovered_devices w !! k = Some d ->
  discovered_devices (exec (detect_new_devices ds) w) !! k = Some d' ->
  d' = replay (now (sys w)) (rows_for k (feed ds)) d.
Proof.
  intros Hd Hd'.
  destruct (detect_key_spec ds w k) as (_ & _ & _ & mid & Hk & Hev).
  cbn zeta in *. rewrite Hd in Hk. cbn [key_outcome] in Hk. subst mid.
  rewrite Hev in Hd'. cbn [after_eviction] in Hd'.
  destruct (decide _); congruence.
Qed.

Lemma pass_observed ds w k :
  k ∈ observed (feed ds) ->
  exists d', discovered_devices (exec (detect_new_devices ds) w) !! k = Some d'
    /\ Discovered.is_new d'
       = (now (sys w) - Discovered.first_seen d' <? seconds 300)%Z.
Proof.
  intros Hobs.
  destruct (detect_key_spec ds w k) as (_ & _ & _ & mid & Hk & Hev).
  cbn zeta in *. rewrite after_eviction_observed in Hev by assumption.
  rewrite Hev. apply rows_for_observed in Hobs.
  destruct (discovered_devices w !! k) as [d0|]; cbn [key_outcome] in Hk.
  - subst mid. eexists. split; [reflexivity|].
    destruct (replay_last (now (sys w)) _ d0 Hobs) as [_ ->].
    now rewrite replay_first_seen.
  - destruct (rows_for k (feed ds)) as [|e r]; [congruence|].
    destruct Hk as (dc & t & Hc & Ht & ->). eexists. split; [reflexivity|].
    destruct Hc as (Hf & _ & Hn & _).
    destruct r as [|e' r'].
    + cbn. rewrite Hn, Hf. symmetry. apply Z.ltb_lt. unfold seconds. lia.
    + destruct (replay_last (now (sys w)) (e' :: r') dc ltac:(congruence)) as [_ ->].
      now rewrite replay_first_seen.
Qed.




(** The scenario of the spec: a new MAC is fed once, and once more 301 s
    later. *)
Example refeed_after_301_seconds :
  let k := "AA:BB:CC:00:11:22" in
  let w0 := world_fresh env_plain (seconds 1700000000) in
  let w1 := exec (detect_new_devices snapshot_arp_only) w0 in
  let w2 := exec (detect_new_devices snapshot_arp_only) (later (seconds 301) w1) in
  Discovered.is_new <$> discovered_devices w1 !! k = Some true
  /\ Discovered.is_new <$> discovered_devices w2 !! k = Some false
  /\ Discovered.first_seen <$> discovered_devices w2 !! k
     = Discovered.first_seen <$> discovered_devices w1 !! k
  /\ Discovered.vendor <$> discovered_devices w1 !! k = Some (PStr "Acme Corp").
Proof. vm_compute. repeat split. Qed.

Lemma lease_row_of_feed ds k l :
  In (OfLease l) (rows_for k (feed ds)) ->
  In l (get_all_dhcp_leases ds) /\ key_of (OfLease l) = Some k.
Proof.
  intros H. apply rows_for_In in H as [H Hk]. split; [|exact Hk].
  unfold feed in H. apply in_app_or in H as [H|H].
  - apply in_map_iff in H as (a & Ha & _). discriminate.
  - apply in_map_iff in H as (l' & Hl & Hin). now inversion Hl; subst.
Qed.

Lemma pass_hostname ds w k d d' :
  discovered_devices w !! k = Some d ->
  discovered_devices (exec (detect_new_devices ds) w) !! k = Some d' ->
  Discovered.hostname d' = Discovered.hostname d
  \/ (str_truthy (Discovered.hostname d) = false
      /\ str_truthy (Discovered.hostname d') = true
      /\ exists l, In l (get_all_dhcp_leases ds)
                   /\ key_of (OfLease l) = Some k
                   /\ DHCPLease.hostname l = Discovered.hostname d').
Proof.
  intros Hd Hd'. rewrite (pass_first_seen ds w k d d' Hd Hd').
  destruct (replay_hostname (now (sys w)) (rows_for k (feed ds)) d)
    as [H|(H1 & H2 & l & Hin & Hl)]; [now left|right].
  split_and!; auto. exists l.
  destruct (lease_row_of_feed ds k l Hin). auto.
Qed.

Lemma worker_hostname snapshots :
  forall w k d,
    discovered_devices w !! k = Some d ->
    str_truthy (Discovered.hostname d) = true ->
    present_throughout k snapshots w ->
    exists d', discovered_devices (exec (discovery_worker snapshots) w) !! k = Some d'
               /\ Discovered.hostname d' = Discovered.hostname d.
Proof.
  induction snapshots as [|ds r IH]; intros w k d Hd Ht Hp.
  - exists d. split; [exact Hd|reflexivity].
  - cbn [present_throughout] in Hp. destruct Hp as [[d1 Hd1] Hp].
    assert (Discovered.hostname d1 = Discovered.hostname d) as E.
    { destruct (pass_hostname ds w k d d1 Hd Hd1) as [H|(H & _)]; congruence. }
    set (w1 := exec (detect_new_devices ds) w) in *.
    set (w2 := exec (lift (time_sleep (seconds SCAN_INTERVAL))) w1) in *.
    assert (discovered_devices w2 !! k = Some d1) as Hd2 by exact Hd1.
    destruct (IH w2 k d1 Hd2 ltac:(congruence) Hp) as (d' & Hd' & Hf).
    exists d'. split; [|congruence].
    replace (exec (discovery_worker (ds :: r)) w)
      with (exec (discovery_worker r) w2); [exact Hd'|].
    unfold exec. cbn [discovery_worker]. unfold bind.
    subst w2 w1. unfold exec.
    destruct (detect_new_devices ds w) as [nd wa]. cbn [snd].
    destruct (lift (time_sleep (seconds SCAN_INTERVAL)) wa) as [[] wb]. reflexivity.
Qed.

(** An observed key is there after each pass. *)
Lemma observed_present_throughout k snapshots :
  Forall (fun ds => k ∈ observed (feed ds)) snapshots ->
  forall w, present_throughout k snapshots w.
Proof.
  induction 1 as [|ds r Hobs _ IH]; intros w; [exact I|].
  cbn [present_throughout]. split; [|apply IH].
  destruct (pass_observed ds w k Hobs) as (d' & Hd' & _). eauto.
Qed.

Lemma first_row_of_feed ds k e r :
  rows_for k (feed ds) = e :: r ->
  forall l, In (OfLease l) (e :: r) ->
    In l (get_all_dhcp_leases ds) /\ key_of (OfLease l) = Some k.
Proof.
  intros Hrows l Hin. apply lease_row_of_feed. now rewrite Hrows.
Qed.

(** The hostname of a dictionary created by a pass. *)
Lemma pass_created_hostname ds w k d' :
  discovered_devices w !! k = None ->
  discovered_devices (exec (detect_new_devices ds) w) !! k = Some d' ->
  Discovered.hostname d' = Some ""
  \/ exists l, In l (get_all_dhcp_leases ds)
               /\ key_of (OfLease l) = Some k
               /\ DHCPLease.hostname l = Discovered.hostname d'.
Proof.
  intros Hnone Hd'.
  destruct (detect_key_spec ds w k) as (_ & _ & _ & mid & Hk & Hev).
  cbn zeta in *. rewrite Hnone in Hk. cbn [key_outcome] in Hk.
  destruct (rows_for k (feed ds)) as [|e r] eqn:Hrows.
  - subst mid. rewrite Hev in Hd'. discriminate.
  - destruct Hk as (dc & t & Hc & _ & ->).
    assert (d' = replay (now (sys w)) r dc) as ->.
    { rewrite Hev in Hd'. cbn in Hd'. destruct (decide _); congruence. }
    destruct Hc as (_ & _ & _ & Hh & _).
    destruct (replay_hostname (now (sys w)) r dc) as [Hsame|(_ & _ & l & Hin & Hl)].
    + rewrite Hsame, Hh. destruct e as [a|l]; [now left|right].
      exists l. destruct (first_row_of_feed ds k _ _ Hrows l (or_introl eq_refl)).
      auto.
    + right. exists l.
      destruct (first_row_of_feed ds k _ _ Hrows l (or_intror Hin)). auto.
Qed.

(** C3.  Across a pass, the hostname of a known MAC changes only from an
    empty one to the non-empty hostname of a DHCP lease for that MAC read
    in that pass; so it is unchanged by a pass whose leases do not name the
    MAC, whatever the ARP rows are.  A dictionary created in a pass has the
    empty hostname or the hostname of a lease for that MAC read in that
    pass, hence the empty one when no lease names the MAC.  And a non-empty
    hostname stays as it is through any run of the worker in which the
    entry is there after each pass, in particular when the ARP rows of
    every pass name the MAC. *)
Theorem C3_hostname_from_leases_only :
  (forall (w : World) (ds : DataStore) (k : string) d d',
      discovered_devices w !! k = Some d ->
      discovered_devices (exec (detect_new_devices ds) w) !! k = Some d' ->
      Discovered.hostname d' = Discovered.hostname d
      \/ (str_truthy (Discovered.hostname d) = false
          /\ str_truthy (Discovered.hostname d') = true
          /\ exists l, In l (get_all_dhcp_leases ds)
                       /\ key_of (OfLease l) = Some k
                       /\ DHCPLease.hostname l = Discovered.hostname d'))
  /\ (forall (w : World) (ds : DataStore) (k : string) d',
      discovered_devices w !! k = None ->
      discovered_devices (exec (detect_new_devices ds) w) !! k = Some d' ->
      Discovered.hostname d' = Some ""
      \/ exists l, In l (get_all_dhcp_leases ds)
                   /\ key_of (OfLease l) = Some k
                   /\ DHCPLease.hostname l = Discovered.hostname d')
  /\ (forall (w : World) (ds : DataStore) (k : string) d',
      discovered_devices w !! k = None ->
      (forall l, In l (get_all_dhcp_leases ds) -> key_of (OfLease l) <> Some k) ->
      discovered_devices (exec (detect_new_devices ds) w) !! k = Some d' ->
      Discovered.hostname d' = Some "")
  /\ (forall (w : World) (snapshots : list DataStore) (k : string) d,
      discovered_devices w !! k = Some d ->
      str_truthy (Discovered.hostname d) = true ->
      (present_throughout k snapshots w
       \/ Forall (fun ds => k ∈ observed (map OfArp (get_all_arp_entries ds)))
                 snapshots) ->
      exists d',
        discovered_devices (exec (discovery_worker snapshots) w) !! k = Some d'
        /\ Discovered.hostname d' = Discovered.hostname d).
Proof.
  split_and!.
  - intros w ds k d d'. apply pass_hostname.
  - intros w ds k d'. apply pass_created_hostname.
  - intros w ds k d' Hnone Hno Hd'.
    destruct (pass_created_hostname ds w k d' Hnone Hd') as [H|(l & Hin & Hk & _)];
      [exact H|].
    now apply Hno in Hin.
  - intros w snapshots k d Hd Ht [Hp|Hobs].
    + now apply worker_hostname.
    + apply worker_hostname; [assumption..|].
      apply observed_present_throughout.
      eapply Forall_impl; [exact Hobs|]. intros ds Hin. cbn beta in Hin.
      unfold feed, observed in *. rewrite omap_app, list_to_set_app_L. set_solver.
Qed.

Lemma C3_hostname_from_leases_only_witness :
  let k := "AA:BB:CC:00:11:22" in
  let w0 := world_fresh env_plain (seconds 1700000000) in
  let w1 := exec (detect_new_devices snapshot_arp_only) w0 in
  let w2 := exec (detect_new_devices snapshot_with_lease) w1 in
  let arp_only := [snapshot_arp_only; snapshot_arp_only] in
  (exists d,
     discovered_devices w2 !! k = Some d
     /\ str_truthy (Discovered.hostname d) = true
     /\ Forall (fun ds => k ∈ observed (map OfArp (get_all_arp_entries ds))) arp_only
     /\ exists d',
          discovered_devices (exec (discovery_worker arp_only) w2) !! k = Some d'
          /\ Discovered.hostname d' = Discovered.hostname d)
  /\ (discovered_devices w0 !! k = None
      /\ exists d',
           discovered_devices (exec (detect_new_devices snapshot_lease_only) w0) !! k
           = Some d'
           /\ (Discovered.hostname d' = Some ""
               \/ exists l, In l (get_all_dhcp_leases snapshot_lease_only)
                            /\ key_of (OfLease l) = Some k
                            /\ DHCPLease.hostname l = Discovered.hostname d')).
Proof.
  intros k w0 w1 w2 arp_only.
  destruct C3_hostname_from_leases_only as (_ & Hcreated & _ & H).
  split.
  - assert (Discovered.hostname <$> discovered_devices w2 !! k = Some (Some "laptop"))
      as Hh by (vm_compute; reflexivity).
    destruct (discovered_devices w2 !! k) as [d|] eqn:Hd; [|discriminate].
    cbn in Hh. injection Hh as Hh.
    assert (str_truthy (Discovered.hostname d) = true) as Ht by (now rewrite Hh).
    assert (Forall (fun ds => k ∈ observed (map OfArp (get_all_arp_entries ds)))
                   arp_only) as Hobs.
    { repeat constructor; apply (bool_decide_unpack _); vm_compute; exact I. }
    exists d. split_and!; try assumption; try reflexivity.
    exact (H w2 arp_only k d Hd Ht (or_intror Hobs)).
  - split; [reflexivity|].
    assert (is_Some (discovered_devices
                       (exec (detect_new_devices snapshot_lease_only) w0) !! k))
      as [d' Hd'] by (apply (bool_decide_unpack _); vm_compute; exact I).
    exists d'. split; [exact Hd'|].
    exact (Hcreated w0 snapshot_lease_only k d' eq_refl Hd').
Defined.

(** The scenario of the spec: a MAC known from ARP without a hostname gets
    the hostname of a lease, and keeps it through a later pass that sees the
    MAC in the ARP table only. *)
Example lease_then_arp_only :
  let k := "AA:BB:CC:00:11:22" in
  let w0 := world_fresh env_plain (seconds 1700000000) in
  let w1 := exec (detect_new_devices snapshot_arp_only) w0 in
  let w2 := exec (detect_new_devices snapshot_with_lease) w1 in
  let w3 := exec (detect_new_devices snapshot_arp_only) w2 in
  Discovered.hostname <$> discovered_devices w1 !! k = Some (Some "")
  /\ Discovered.hostname <$> discovered_devices w2 !! k = Some (Some "laptop")
  /\ Discovered.hostname <$> discovered_devices w3 !! k = Some (Some "laptop").
Proof. vm_compute. repeat split. Qed.

(** *** Eviction *)





(** ** Promotion *)

Section PromotionFacts.

Variable py_repr : pyval -> string.
Variable strftime : Z -> string.

Abbreviation promote := (add_to_monitored_devices py_repr strftime).
Abbreviation promoted := (promoted_record py_repr strftime).

Lemma promote_unknown mac site w :
  discovered_devices w !! mac = None ->
  promote mac site w = (None, w).
Proof.
  intros H. unfold add_to_monitored_devices, bind, gets. now rewrite H.
Qed.

Lemma promote_existing mac site w info dev :
  discovered_devices w !! mac = Some info ->
  List.find (same_mac_ignoring_case mac) (monitored w) = Some dev ->
  promote mac site w = (Device.id dev, w).
Proof.
  intros H Hf. unfold add_to_monitored_devices, bind, gets, config.get_devices.
  rewrite H. unfold gets. now rewrite Hf.
Qed.

Lemma find_none_snoc {A} (f : A -> bool) l x :
  List.find f l = None ->
  List.find f (l ++ [x])%list = if f x then Some x else None.
Proof.
  induction l as [|y l IH]; cbn; [reflexivity|].
  destruct (f y); [discriminate|exact IH].
Qed.

Lemma verbatim_ignoring_case mac dev :
  same_mac_verbatim mac dev = true -> same_mac_ignoring_case mac dev = true.
Proof.
  unfold same_mac_verbatim, same_mac_ignoring_case.
  destruct (Device.mac_address dev) as [m|]; [|discriminate].
  intros H. apply String.eqb_eq in H. subst m. apply String.eqb_refl.
Qed.

Lemma find_verbatim_none mac l :
  List.find (same_mac_ignoring_case mac) l = None ->
  List.find (same_mac_verbatim mac) l = None.
Proof.
  induction l as [|y l IH]; cbn; [reflexivity|].
  destruct (same_mac_ignoring_case mac y) eqn:E; [discriminate|].
  destruct (same_mac_verbatim mac y) eqn:E'; [|exact IH].
  apply verbatim_ignoring_case in E'. congruence.
Qed.

Lemma promote_new mac site w info :
  discovered_devices w !! mac = Some info ->
  List.find (same_mac_ignoring_case mac) (monitored w) = None ->
  promote mac site w =
  (Some (id_source w (length (monitored w))),
   set_monitored (monitored w ++ [promoted mac site info w])%list w).
Proof.
  intros H Hf.
  unfold add_to_monitored_devices, config.get_devices, config.add_device.
  unfold bind, gets, modify. rewrite H, Hf.
  cbn [monitored set_monitored Device.id new_device_for].
  fold (promoted_record py_repr strftime mac site info w).
  rewrite (find_none_snoc _ _ _ (find_verbatim_none _ _ Hf)).
  unfold same_mac_verbatim, promoted_record. cbn. now rewrite String.eqb_refl.
Qed.

Lemma promote_twice mac site w info :
  discovered_devices w !! mac = Some info ->
  let w1 := exec (promote mac site) w in
  promote mac site w1 = (eval (promote mac site) w, w1).
Proof.
  intros H. cbn zeta. unfold eval, exec.
  destruct (List.find (same_mac_ignoring_case mac) (monitored w)) as [dev|] eqn:Hf.
  - rewrite (promote_existing _ _ _ _ _ H Hf). cbn [fst snd].
    apply (promote_existing _ _ _ _ _ H Hf).
  - rewrite (promote_new _ _ _ _ H Hf). cbn [fst snd].
    rewrite (promote_existing mac site _ info (promoted mac site info w));
      [reflexivity|exact H|].
    cbn [monitored set_monitored]. rewrite (find_none_snoc _ _ _ Hf).
    unfold same_mac_ignoring_case, promoted_record. cbn.
    now rewrite String.eqb_refl.
Qed.

End PromotionFacts.

(** *** Equality up to case *)

Lemma upper_char_code c :
  nat_of_ascii (PyStr.upper_char c)
  = (if (Nat.leb 97 (nat_of_ascii c) && Nat.leb (nat_of_ascii c) 122)%bool
     then nat_of_ascii c - 32 else nat_of_ascii c)%nat.
Proof. destruct c as [[] [] [] [] [] [] [] []]; reflexivity. Qed.

Lemma nat_of_ascii_inj a b : nat_of_ascii a = nat_of_ascii b -> a = b.
Proof.
  intros H. rewrite <- (ascii_nat_embedding a), <- (ascii_nat_embedding b).
  now rewrite H.
Qed.

(** Two characters are the same up to case exactly when they have one
    upper-case form. *)
Lemma char_same_up_to_case_spec a b :
  char_same_up_to_case a b = true <-> PyStr.upper_char a = PyStr.upper_char b.
Proof.
  transitivity (nat_of_ascii (PyStr.upper_char a) = nat_of_ascii (PyStr.upper_char b)).
  2: { split; [apply nat_of_ascii_inj|congruence]. }
  rewrite !upper_char_code. unfold char_same_up_to_case. cbv zeta.
  generalize (nat_of_ascii a) (nat_of_ascii b). intros x y.
  rewrite !orb_true_iff, !andb_true_iff, !Nat.eqb_eq, !Nat.leb_le.
  destruct (Nat.leb_spec 97 x), (Nat.leb_spec x 122),
           (Nat.leb_spec 97 y), (Nat.leb_spec y 122); cbn [andb]; lia.
Qed.

(** Strings that differ in the case of ASCII letters at most are the
    strings with one upper-case form: the duplicate test of the promotion
    takes them, and on ASCII strings only them, for the same. *)
Lemma same_up_to_case_spec s t :
  same_up_to_case s t = true <-> PyStr.upper s = PyStr.upper t.
Proof.
  unfold PyStr.upper. revert t.
  induction s as [|a s IH]; intros [|b t]; cbn [same_up_to_case PyStr.map_chars];
    try (split; [discriminate|discriminate]); [split; reflexivity|].
  rewrite andb_true_iff, char_same_up_to_case_spec, IH.
  split; [intros [-> ->]; reflexivity|intros [= -> ->]; auto].
Qed.

Lemma same_mac_ignoring_case_spec mac dev :
  same_mac_ignoring_case mac dev = true
  <-> exists m, Device.mac_address dev = Some m /\ PyStr.upper m = PyStr.upper mac.
Proof.
  unfold same_mac_ignoring_case. destruct (Device.mac_address dev) as [m|].
  - rewrite String.eqb_eq. split; [eauto|]. now intros (m' & [= <-] & H).
  - split; [discriminate|]. now intros (m' & [=] & _).
Qed.

(** C5.  For a MAC of the inventory: when the monitored set holds a device
    whose MAC differs from it in the case of letters at most, the promotion
    returns the identifier of a monitored device whose MAC has the same
    upper-case form (hence, when the two are ASCII strings, differs from it
    in the case of letters at most), and changes nothing; a second promotion
    with the same arguments returns what the first returned and changes
    nothing; and when no monitored device has a MAC with the same
    upper-case form, the two promotions together add exactly one record,
    disabled, whose identifier is the one returned. *)
Theorem C5_promotion_idempotent (py_repr : pyval -> string) (strftime : Z -> string)
    (w : World) (mac site : string) (info : Discovered.t) :
  let promote := add_to_monitored_devices py_repr strftime mac site in
  let w1 := exec promote w in
  let w2 := exec promote w1 in
  discovered_devices w !! mac = Some info ->
  (forall dev m, In dev (monitored w) -> Device.mac_address dev = Some m ->
     same_up_to_case m mac = true ->
     exists dev' m', In dev' (monitored w)
                     /\ Device.mac_address dev' = Some m'
                     /\ PyStr.upper m' = PyStr.upper mac
                     /\ (ascii_only m' = true -> ascii_only mac = true ->
                         same_up_to_case m' mac = true)
                     /\ eval promote w = Device.id dev' /\ w1 = w)
  /\ eval promote w1 = eval promote w
  /\ w2 = w1
  /\ ((forall dev m, In dev (monitored w) -> Device.mac_address dev = Some m ->
         PyStr.upper m <> PyStr.upper mac) ->
      exists d, monitored w2 = (monitored w ++ [d])%list
                /\ eval promote w = Device.id d
                /\ is_Some (Device.id d)
                /\ Device.mac_address d = Some mac
                /\ Device.enabled d = false).
Proof.
  intros promote w1 w2 Hinv. subst w2 w1 promote.
  pose proof (promote_twice py_repr strftime mac site w info Hinv) as Htwice.
  cbn zeta in Htwice.
  split_and!.
  - intros dev m Hin Hm Hsame.
    destruct (List.find (same_mac_ignoring_case mac) (monitored w)) as [dev'|] eqn:Hf.
    + apply find_some in Hf as Hf'. destruct Hf' as [Hin' Hsame'].
      apply same_mac_ignoring_case_spec in Hsame' as (m' & Hm' & Hup).
      exists dev', m'. split_and!; try assumption.
      * intros _ _. now apply same_up_to_case_spec.
      * unfold eval. now rewrite (promote_existing _ _ _ _ _ _ _ Hinv Hf).
      * unfold exec. now rewrite (promote_existing _ _ _ _ _ _ _ Hinv Hf).
    + eapply find_none in Hf; [|exact Hin].
      assert (same_mac_ignoring_case mac dev = true) as Hyes.
      { apply same_mac_ignoring_case_spec. exists m. split; [exact Hm|].
        now apply same_up_to_case_spec. }
      congruence.
  - unfold eval at 1. now rewrite Htwice.
  - unfold exec at 1. now rewrite Htwice.
  - intros Hnone.
    assert (List.find (same_mac_ignoring_case mac) (monitored w) = None) as Hf.
    { destruct (List.find _ _) as [dev|] eqn:Hf; [|reflexivity].
      apply find_some in Hf as [Hin Hs].
      apply same_mac_ignoring_case_spec in Hs as (m & Hm & Hup).
      now destruct (Hnone dev m Hin Hm). }
    unfold exec at 1. rewrite Htwice. cbn [snd].
    unfold eval, exec.
    rewrite (promote_new _ _ _ _ _ _ Hinv Hf). cbn [fst snd monitored set_monitored].
    eexists. split; [reflexivity|]. cbn. eauto.
Qed.

Lemma C5_promotion_idempotent_witness :
  let promote := add_to_monitored_devices (fun _ => "") (fun _ => "")
                   "AA:BB:CC:00:11:22" "site-1" in
  let w := exec (detect_new_devices snapshot_with_lease)
                (world_fresh env_plain (seconds 1700000000)) in
  let w1 := exec promote w in
  let w2 := exec promote w1 in
  let known := set_monitored [device_of_another_mac; device_entered_by_hand] w in
  let other := set_monitored [device_of_another_mac] w in
  (is_Some (discovered_devices w !! "AA:BB:CC:00:11:22")
   /\ monitored w = []
   /\ eval promote w1 = eval promote w
   /\ w2 = w1
   /\ exists d, monitored w2 = [d] /\ eval promote w = Device.id d
                /\ Device.enabled d = false)
  /\ (same_up_to_case "aa:bb:cc:00:11:22" "AA:BB:CC:00:11:22" = true
      /\ eval promote known = Some "dev-7"
      /\ exec promote known = known)
  /\ (PyStr.upper "11:22:33:44:55:66" <> PyStr.upper "AA:BB:CC:00:11:22"
      /\ exists d, monitored (exec promote (exec promote other))
                   = [device_of_another_mac; d]
                   /\ eval promote other = Device.id d
                   /\ Device.mac_address d = Some "AA:BB:CC:00:11:22"
                   /\ Device.enabled d = false).
Proof.
  intros promote w w1 w2 known other.
  assert (forall w0 info0,
            discovered_devices w0 !! "AA:BB:CC:00:11:22" = Some info0 ->
            eval promote
              (set_monitored [device_of_another_mac; device_entered_by_hand] w0)
            = Some "dev-7"
            /\ exec promote
                 (set_monitored [device_of_another_mac; device_entered_by_hand] w0)
               = set_monitored [device_of_another_mac; device_entered_by_hand] w0)
    as Hknown.
  { intros w0 info0 H0.
    destruct (C5_promotion_idempotent (fun _ => "") (fun _ => "")
                (set_monitored [device_of_another_mac; device_entered_by_hand] w0)
                "AA:BB:CC:00:11:22" "site-1" info0 H0) as (H1 & _).
    destruct (H1 device_entered_by_hand "aa:bb:cc:00:11:22"
                (or_intror (or_introl eq_refl)) eq_refl eq_refl)
      as (dev' & m' & Hdev' & Hm' & Hup & _ & Hid & Hsame).
    split; [|exact Hsame].
    destruct Hdev' as [<-|[<-|[]]]; [|exact Hid].
    injection Hm' as <-. vm_compute in Hup. discriminate Hup. }
  assert (PyStr.upper "11:22:33:44:55:66" <> PyStr.upper "AA:BB:CC:00:11:22") as Hne
    by (vm_compute; discriminate).
  assert (forall w0 info0,
            discovered_devices w0 !! "AA:BB:CC:00:11:22" = Some info0 ->
            exists d,
              monitored (exec promote (exec promote
                           (set_monitored [device_of_another_mac] w0)))
              = [device_of_another_mac; d]
              /\ eval promote (set_monitored [device_of_another_mac] w0) = Device.id d
              /\ Device.mac_address d = Some "AA:BB:CC:00:11:22"
              /\ Device.enabled d = false) as Hother.
  { intros w0 info0 H0.
    destruct (C5_promotion_idempotent (fun _ => "") (fun _ => "")
                (set_monitored [device_of_another_mac] w0)
                "AA:BB:CC:00:11:22" "site-1" info0 H0) as (_ & _ & _ & H4).
    destruct H4 as (d & Hd & Hid & _ & Hmac & Hen).
    { intros dev m [<-|[]] [= <-]. exact Hne. }
    exists d. split; [exact Hd|]. auto. }
  assert (is_Some (discovered_devices w !! "AA:BB:CC:00:11:22")) as Hin.
  { apply (bool_decide_unpack _). vm_compute. exact I. }
  assert (monitored w = []) as Hm by (vm_compute; reflexivity).
  destruct Hin as [info Hinfo].
  split; [|split].
  - destruct (C5_promotion_idempotent (fun _ => "") (fun _ => "") w
                "AA:BB:CC:00:11:22" "site-1" info Hinfo) as (_ & H2 & H3 & H4).
    split; [eauto|]. split; [exact Hm|]. split; [exact H2|]. split; [exact H3|].
    destruct H4 as (d & Hd & Hid & _ & _ & Hen).
    { intros dev m Hdev. rewrite Hm in Hdev. destruct Hdev. }
    exists d. rewrite Hm in Hd. auto.
  - split; [reflexivity|]. exact (Hknown w info Hinfo).
  - split; [exact Hne|]. exact (Hother w info Hinfo).
Defined.

(** The scenario of the spec, evaluated: the identifier is the same both
    times and the store holds one record, named after the lease. *)
Example promote_twice_scenario :
  let promote := add_to_monitored_devices (fun _ => "") (fun _ => "")
                   "AA:BB:CC:00:11:22" "site-1" in
  let w := exec (detect_new_devices snapshot_with_lease)
                (world_fresh env_plain (seconds 1700000000)) in
  let w1 := exec promote w in
  eval promote w = Some "dev-0"
  /\ eval promote w1 = Some "dev-0"
  /\ map Device.name (monitored (exec promote w1)) = ["laptop"].
Proof. vm_compute. repeat split. Qed.

(** *** The membership test *)

Lemma key_of_upper e k : key_of e = Some k -> PyStr.upper k = k.
Proof.
  unfold key_of. destruct (PyStr.nonempty _); [|discriminate].
  intros [= <-]. apply upper_idem.
Qed.

Lemma detect_keys_upper ds w :
  keys_upper w -> keys_upper (exec (detect_new_devices ds) w).
Proof.
  intros Hw k [d' Hd'].
  destruct (detect_key_spec ds w k) as (_ & _ & _ & mid & Hk & Hev).
  cbn zeta in *.
  destruct (discovered_devices w !! k) as [d|] eqn:Hd; [apply Hw; rewrite Hd; eauto|].
  cbn [key_outcome] in Hk.
  destruct (rows_for k (feed ds)) as [|e r] eqn:Hrows.
  - subst mid. rewrite Hev in Hd'. discriminate.
  - assert (In e (rows_for k (feed ds))) as Hin by (rewrite Hrows; now left).
    apply rows_for_In in Hin as [_ Hkey]. exact (key_of_upper e k Hkey).
Qed.

Lemma worker_keys_upper snapshots :
  forall w, keys_upper w -> keys_upper (exec (discovery_worker snapshots) w).
Proof.
  induction snapshots as [|ds r IH]; intros w Hw; [exact Hw|].
  unfold exec. cbn [discovery_worker]. unfold bind.
  pose proof (detect_keys_upper ds w Hw) as H1. unfold exec in H1.
  destruct (detect_new_devices ds w) as [nd wa]. cbn [snd] in H1.
  specialize (IH (exec (lift (time_sleep (seconds SCAN_INTERVAL))) wa) H1).
  unfold exec in IH.
  destruct (lift (time_sleep (seconds SCAN_INTERVAL)) wa) as [[] wb]. exact IH.
Qed.

(** C10, as stated, fails for a spelling that differs in its separators:
    the keys keep the separators of the source, so two sources that spell
    one MAC differently give two entries, and each spelling is promoted. *)
Lemma C10_other_spelling_is_promoted :
  let w := exec (detect_new_devices snapshot_two_spellings)
                (world_fresh env_plain (seconds 1700000000)) in
  let k := "AA:BB:CC:00:11:22" in
  let s := "AABBCC001122" in
  is_Some (discovered_devices w !! k)
  /\ s <> k
  /\ canonical_mac s = canonical_mac k
  /\ eval (add_to_monitored_devices (fun _ => "") (fun _ => "") s "site-1") w
     = Some "dev-0".
Proof.
  cbn zeta. split_and!.
  - apply (bool_decide_unpack _). vm_compute. exact I.
  - discriminate.
  - reflexivity.
  - vm_compute. reflexivity.
Qed.

(** C10, amended.  The membership test of the promotion compares the MAC
    as given with the keys of the inventory, which are the upper-case form
    of what the sources reported, separators kept.  So a promotion returns
    nothing and changes nothing for every string that is not itself a key:
    for every string that has a lower-case letter, hence for every spelling
    of a key that differs from it in case only, and for a spelling that
    differs in separators unless that spelling is a key as well.  The later
    test against the monitored set ignores case. *)
Theorem C10_membership_is_verbatim (py_repr : pyval -> string)
    (strftime : Z -> string) (w : World) (mac site : string) :
  let promote := add_to_monitored_devices py_repr strftime mac site in
  keys_upper w ->
  (discovered_devices w !! mac = None -> promote w = (None, w))
  /\ (PyStr.upper mac <> mac -> promote w = (None, w))
  /\ (forall k, is_Some (discovered_devices w !! k) ->
        mac <> k -> PyStr.upper mac = PyStr.upper k -> promote w = (None, w))
  /\ (forall info dev,
        discovered_devices w !! mac = Some info ->
        In dev (monitored w) ->
        (exists m, Device.mac_address dev = Some m
                   /\ PyStr.upper m = PyStr.upper mac) ->
        exists dev', In dev' (monitored w)
                     /\ promote w = (Device.id dev', w)).
Proof.
  intros promote Hup.
  assert (PyStr.upper mac <> mac -> discovered_devices w !! mac = None) as Hlow.
  { intros Hne. destruct (discovered_devices w !! mac) eqn:E; [|reflexivity].
    exfalso. apply Hne, Hup. rewrite E. eauto. }
  split_and!.
  - apply promote_unknown.
  - intros Hne. apply promote_unknown, Hlow, Hne.
  - intros k Hk Hne Heq. apply promote_unknown, Hlow.
    rewrite Heq, (Hup k Hk). congruence.
  - intros info dev Hinfo Hin (m & Hm & Heq).
    destruct (List.find (same_mac_ignoring_case mac) (monitored w)) as [dev'|] eqn:Hf.
    + exists dev'. split; [now apply find_some in Hf|].
      exact (promote_existing _ _ _ _ _ _ _ Hinfo Hf).
    + eapply find_none in Hf; [|exact Hin].
      unfold same_mac_ignoring_case in Hf. rewrite Hm, Heq, String.eqb_refl in Hf.
      discriminate.
Qed.

Lemma C10_membership_is_verbatim_witness :
  let w := exec (detect_new_devices snapshot_arp_only)
                (world_fresh env_plain (seconds 1700000000)) in
  let promote := add_to_monitored_devices (fun _ => "") (fun _ => "") in
  keys_upper w
  /\ is_Some (discovered_devices w !! "AA:BB:CC:00:11:22")
  /\ promote "aa:bb:cc:00:11:22" "site-1" w = (None, w)
  /\ promote "AABBCC001122" "site-1" w = (None, w).
Proof.
  intros w promote.
  assert (keys_upper w) as Hup.
  { apply detect_keys_upper. intros k [d Hd]. discriminate. }
  assert (is_Some (discovered_devices w !! "AA:BB:CC:00:11:22")) as Hk.
  { apply (bool_decide_unpack _). vm_compute. exact I. }
  split; [exact Hup|]. split; [exact Hk|]. split.
  - destruct (C10_membership_is_verbatim (fun _ => "") (fun _ => "") w
                "aa:bb:cc:00:11:22" "site-1" Hup) as (_ & _ & H & _).
    apply (H "AA:BB:CC:00:11:22" Hk); [discriminate|reflexivity].
  - destruct (C10_membership_is_verbatim (fun _ => "") (fun _ => "") w
                "AABBCC001122" "site-1" Hup) as (H & _).
    apply H. vm_compute. reflexivity.
Defined.

(** ** The probe *)

Lemma probe_body_failure h uuid ip username password port :
  (forall code, Probe.connect_ex h = Probe.Returns code -> code <> 0%Z ->
     Probe.probe_body h uuid ip username password port = Probe.Returns None)
  /\ (Probe.connect_ex h = Probe.Returns 0%Z ->
      (exists e, Probe.get_api h = Probe.Raises e
                 \/ Probe.system_resource_get h = Probe.Raises e
                 \/ Probe.identity_resource_get h = Probe.Raises e)
      \/ Probe.system_resource_get h = Probe.Returns []
      \/ Probe.identity_resource_get h = Probe.Returns [] ->
      exists e, Probe.probe_body h uuid ip username password port = Probe.Raises e).
Proof.
  unfold Probe.probe_body, Probe.and_then. split.
  - intros code -> Hne. destruct (Z.eqb_spec code 0); [contradiction|reflexivity].
  - intros ->. cbn.
    destruct (Probe.get_api h) as [[]|e1]; [|eauto].
    destruct (Probe.system_resource_get h) as [[|r1 rows1]|e2]; cbn; [eauto| |eauto].
    destruct (Probe.identity_resource_get h) as [[|r2 rows2]|e3]; cbn; [eauto| |eauto].
    intros [(e & [H|[H|H]])|[H|H]]; discriminate.
Qed.

Lemma settimeout_accepts h uuid ip username password port timeout :
  (0 <= timeout <= 9223372036)%Z ->
  Probe.check_mikrotik_device h uuid ip username password port timeout =
  Probe.try_except (Probe.probe_body h uuid ip username password port)
                   (fun e => Probe.Returns None).
Proof.
  intros Ht. unfold Probe.check_mikrotik_device, Probe.settimeout.
  destruct (Z.ltb_spec timeout 0); [lia|].
  destruct (Z.ltb_spec Probe.TIMEOUT_MAX timeout);
    [unfold Probe.TIMEOUT_MAX in *; lia|].
  reflexivity.
Qed.

(** C8.  With a timeout that [settimeout] accepts (not negative, and
    not beyond the largest timeout the interpreter can keep) the probe of a
    host never raises.  It returns no candidate when the connection attempt
    gives an error indicator (refused, unreachable, timed out) or raises,
    and, on an open port, when the login, either query or the reading of
    the first row of either answer fails. *)
Theorem C8_probe_failures_yield_nothing (h : Probe.Host) (uuid ip username
    password : string) (port timeout : Z) :
  let result :=
    Probe.check_mikrotik_device h uuid ip username password port timeout in
  (0 <= timeout <= 9223372036)%Z ->
  (exists candidate, result = Probe.Returns candidate)
  /\ (forall code, Probe.connect_ex h = Probe.Returns code -> code <> 0%Z ->
        result = Probe.Returns None)
  /\ (forall e, Probe.connect_ex h = Probe.Raises e -> result = Probe.Returns None)
  /\ (Probe.connect_ex h = Probe.Returns 0%Z ->
      (exists e, Probe.get_api h = Probe.Raises e
                 \/ Probe.system_resource_get h = Probe.Raises e
                 \/ Probe.identity_resource_get h = Probe.Raises e)
      \/ Probe.system_resource_get h = Probe.Returns []
      \/ Probe.identity_resource_get h = Probe.Returns [] ->
      result = Probe.Returns None).
Proof.
  intros result Ht. subst result.
  rewrite (settimeout_accepts _ _ _ _ _ _ _ Ht).
  destruct (probe_body_failure h uuid ip username password port) as [Hcode Hopen].
  split_and!.
  - unfold Probe.try_except. destruct (Probe.probe_body _ _ _ _ _ _); eauto.
  - intros code Hc Hne. now rewrite (Hcode code Hc Hne).
  - intros e He. unfold Probe.probe_body. rewrite He. reflexivity.
  - intros Hc Hfail. destruct (Hopen Hc Hfail) as [e ->]. reflexivity.
Qed.

Lemma C8_probe_failures_yield_nothing_witness :
  (0 <= 3 <= 9223372036)%Z
  /\ Probe.check_mikrotik_device host_refusing "id" "192.168.88.1" "admin" "" 8728 3
     = Probe.Returns None
  /\ Probe.check_mikrotik_device host_rejecting_login "id" "192.168.88.1" "admin" ""
       8728 3
     = Probe.Returns None.
Proof.
  assert (0 <= 3 <= 9223372036)%Z as Ht by lia.
  split; [exact Ht|]. split.
  - destruct (C8_probe_failures_yield_nothing host_refusing "id" "192.168.88.1"
                "admin" "" 8728 3 Ht) as (_ & H & _).
    apply (H 111%Z); [reflexivity|discriminate].
  - destruct (C8_probe_failures_yield_nothing host_rejecting_login "id"
                "192.168.88.1" "admin" "" 8728 3 Ht) as (_ & _ & _ & H).
    apply H; [reflexivity|]. left. eexists. left. reflexivity.
Defined.

(** * Further properties of the code *)

(** ** Normalisation of MAC addresses *)

Lemma isalnum_upper_char c : PyStr.isalnum (PyStr.upper_char c) = PyStr.isalnum c.
Proof. destruct c as [[] [] [] [] [] [] [] []]; reflexivity. Qed.

Lemma lower_upper_char c : PyStr.lower_char (PyStr.upper_char c) = PyStr.lower_char c.
Proof. destruct c as [[] [] [] [] [] [] [] []]; reflexivity. Qed.

Lemma upper_lower_char c : PyStr.upper_char (PyStr.lower_char c) = PyStr.upper_char c.
Proof. destruct c as [[] [] [] [] [] [] [] []]; reflexivity. Qed.

Lemma upper_char_not_lower c : PyStr.is_lower (PyStr.upper_char c) = false.
Proof. destruct c as [[] [] [] [] [] [] [] []]; reflexivity. Qed.

Lemma upper_lower s : PyStr.upper (PyStr.lower s) = PyStr.upper s.
Proof.
  unfold PyStr.upper, PyStr.lower.
  induction s as [|c r IH]; cbn; [reflexivity|]. now rewrite upper_lower_char, IH.
Qed.

Lemma lower_upper s : PyStr.lower (PyStr.upper s) = PyStr.lower s.
Proof.
  unfold PyStr.upper, PyStr.lower.
  induction s as [|c r IH]; cbn; [reflexivity|]. now rewrite lower_upper_char, IH.
Qed.

Lemma upper_filter_alnum s :
  PyStr.upper (PyStr.filter_chars PyStr.isalnum s)
  = PyStr.filter_chars PyStr.isalnum (PyStr.upper s).
Proof.
  unfold PyStr.upper.
  induction s as [|c r IH]; cbn; [reflexivity|].
  rewrite isalnum_upper_char. destruct (PyStr.isalnum c); cbn; now rewrite IH.
Qed.

Lemma filter_chars_idem p s :
  PyStr.filter_chars p (PyStr.filter_chars p s) = PyStr.filter_chars p s.
Proof.
  induction s as [|c r IH]; cbn; [reflexivity|].
  destruct (p c) eqn:E; cbn; [rewrite E|]; now rewrite IH.
Qed.

Lemma canonical_mac_idem s : canonical_mac (canonical_mac s) = canonical_mac s.
Proof.
  unfold canonical_mac.
  now rewrite upper_filter_alnum, upper_idem, filter_chars_idem.
Qed.

Lemma all_chars_filter p s : all_chars p (PyStr.filter_chars p s) = true.
Proof.
  induction s as [|c r IH]; cbn; [reflexivity|].
  destruct (p c) eqn:E; cbn; [rewrite E|]; exact IH.
Qed.

Lemma all_chars_filter_keeps q p s :
  all_chars q s = true -> all_chars q (PyStr.filter_chars p s) = true.
Proof.
  induction s as [|c r IH]; cbn; [reflexivity|].
  intros H. apply andb_true_iff in H as [H1 H2].
  destruct (p c); cbn; [rewrite H1|]; auto.
Qed.

Lemma all_chars_upper s :
  all_chars (fun c => negb (PyStr.is_lower c)) (PyStr.upper s) = true.
Proof.
  unfold PyStr.upper.
  induction s as [|c r IH]; cbn; [reflexivity|].
  now rewrite upper_char_not_lower, IH.
Qed.

Lemma all_chars_take q n s :
  all_chars q s = true -> all_chars q (PyStr.take n s) = true.
Proof.
  revert s. induction n as [|n IH]; intros [|c r]; cbn; try reflexivity.
  intros H. apply andb_true_iff in H as [H1 H2]. rewrite H1. cbn. auto.
Qed.

Lemma take_length n s :
  (n <= String.length s)%nat -> String.length (PyStr.take n s) = n.
Proof.
  revert s. induction n as [|n IH]; intros [|c r]; cbn; try reflexivity; try lia.
  intros H. f_equal. apply IH. lia.
Qed.

Lemma take_all n s : (String.length s <= n)%nat -> PyStr.take n s = s.
Proof.
  revert s. induction n as [|n IH]; intros [|c r]; cbn; try reflexivity; try lia.
  intros H. f_equal. apply IH. lia.
Qed.

Lemma canonical_take n s :
  canonical_mac (PyStr.take n (canonical_mac s)) = PyStr.take n (canonical_mac s).
Proof.
  assert (forall t, all_chars PyStr.isalnum t = true ->
                    all_chars (fun c => negb (PyStr.is_lower c)) t = true ->
                    canonical_mac t = t) as Hfix.
  { unfold canonical_mac, PyStr.upper.
    induction t as [|c r IH]; cbn; [reflexivity|].
    intros H1 H2. apply andb_true_iff in H1 as [Ha H1].
    apply andb_true_iff in H2 as [Hl H2].
    unfold PyStr.upper_char. apply negb_true_iff in Hl. rewrite Hl, Ha.
    f_equal. now apply IH. }
  apply Hfix; apply all_chars_take; unfold canonical_mac.
  - apply all_chars_filter.
  - apply all_chars_filter_keeps, all_chars_upper.
Qed.

Lemma normalize_eq mac :
  MacVendorLookup._normalize_mac mac =
  if (String.length (canonical_mac mac) <? 6)%nat then ""
  else PyStr.take 6 (canonical_mac mac).
Proof. reflexivity. Qed.

Lemma upper_char_ascii c :
  Nat.ltb (nat_of_ascii c) 128 = true ->
  Nat.ltb (nat_of_ascii (PyStr.upper_char c)) 128 = true.
Proof.
  destruct c as [[] [] [] [] [] [] [] []]; vm_compute; intros H;
    try discriminate H; reflexivity.
Qed.

Lemma ascii_only_upper s : ascii_only s = true -> ascii_only (PyStr.upper s) = true.
Proof.
  unfold ascii_only, PyStr.upper.
  induction s as [|c r IH]; cbn [all_chars PyStr.map_chars]; [reflexivity|].
  intros H. apply andb_true_iff in H as [Hc Hr].
  now rewrite (upper_char_ascii c Hc), (IH Hr).
Qed.

Lemma ascii_only_normalize mac :
  ascii_only mac = true -> ascii_only (MacVendorLookup._normalize_mac mac) = true.
Proof.
  intros H. rewrite normalize_eq.
  destruct (String.length (canonical_mac mac) <? 6)%nat; [reflexivity|].
  unfold ascii_only. apply all_chars_take. unfold canonical_mac.
  apply all_chars_filter_keeps. now apply ascii_only_upper.
Qed.

(** X1.  For a MAC of ASCII characters, [_normalize_mac] gives either the
    empty string, exactly when fewer than six alphanumeric characters are
    in its argument, or six alphanumeric characters none of which is a
    lower-case letter; its result is made of ASCII characters again, and
    normalising it changes nothing. *)
Theorem normalize_mac_shape_and_idempotence (mac : string) :
  let oui := MacVendorLookup._normalize_mac mac in
  ascii_only mac = true ->
  (oui = "" <-> (String.length (PyStr.filter_chars PyStr.isalnum mac) < 6)%nat)
  /\ (oui <> "" ->
      String.length oui = 6%nat
      /\ all_chars PyStr.isalnum oui = true
      /\ all_chars (fun c => negb (PyStr.is_lower c)) oui = true)
  /\ ascii_only oui = true
  /\ MacVendorLookup._normalize_mac oui = oui.
Proof.
  cbn zeta. intros Hascii.
  pose proof (ascii_only_normalize mac Hascii) as Hres.
  revert Hres. rewrite normalize_eq. intros Hres.
  assert (String.length (canonical_mac mac)
          = String.length (PyStr.filter_chars PyStr.isalnum mac)) as Hlen.
  { unfold canonical_mac. rewrite <- upper_filter_alnum.
    unfold PyStr.upper. generalize (PyStr.filter_chars PyStr.isalnum mac).
    induction s as [|c r IH]; cbn; [reflexivity|]. now rewrite IH. }
  rewrite <- Hlen.
  destruct (Nat.ltb_spec (String.length (canonical_mac mac)) 6) as [Hlt|Hge].
  - split_and!; [tauto|congruence|reflexivity|reflexivity].
  - assert (String.length (PyStr.take 6 (canonical_mac mac)) = 6%nat) as H6
      by (apply take_length; exact Hge).
    split_and!.
    + split; [|lia]. intros E. rewrite E in H6. discriminate.
    + intros _. split_and!; [exact H6| |].
      * apply all_chars_take. unfold canonical_mac. apply all_chars_filter.
      * apply all_chars_take. unfold canonical_mac.
        apply all_chars_filter_keeps, all_chars_upper.
    + exact Hres.
    + rewrite normalize_eq, canonical_take, H6.
      change (6 <? 6)%nat with false. cbv iota. apply take_all. lia.
Qed.

Lemma normalize_mac_shape_and_idempotence_witness :
  ascii_only "aa:bb:cc:00:11:22" = true
  /\ MacVendorLookup._normalize_mac "aa:bb:cc:00:11:22" = "AABBCC"
  /\ MacVendorLookup._normalize_mac
       (MacVendorLookup._normalize_mac "aa:bb:cc:00:11:22")
     = MacVendorLookup._normalize_mac "aa:bb:cc:00:11:22".
Proof.
  assert (ascii_only "aa:bb:cc:00:11:22" = true) as H by reflexivity.
  split; [exact H|]. split; [reflexivity|].
  destruct (normalize_mac_shape_and_idempotence "aa:bb:cc:00:11:22" H)
    as (_ & _ & _ & Hidem).
  exact Hidem.
Defined.

(** X2.  For a MAC of ASCII characters, [_normalize_mac] does not see
    the case of letters nor any character that is not alphanumeric: the
    upper-case form, the lower-case form and the form without separators of
    the MAC all have its OUI. *)
Theorem normalize_mac_ignores_case_and_separators (mac : string) :
  ascii_only mac = true ->
  MacVendorLookup._normalize_mac (PyStr.upper mac) = MacVendorLookup._normalize_mac mac
  /\ MacVendorLookup._normalize_mac (PyStr.lower mac) = MacVendorLookup._normalize_mac mac
  /\ MacVendorLookup._normalize_mac (PyStr.filter_chars PyStr.isalnum mac)
     = MacVendorLookup._normalize_mac mac.
Proof.
  intros _. rewrite !normalize_eq. unfold canonical_mac.
  rewrite upper_idem, upper_lower, upper_filter_alnum, filter_chars_idem. auto.
Qed.

Lemma normalize_mac_ignores_case_and_separators_witness :
  ascii_only "Aa:Bb:cC:00:11:22" = true
  /\ MacVendorLookup._normalize_mac "AA:BB:CC:00:11:22" = "AABBCC"
  /\ MacVendorLookup._normalize_mac "aa:bb:cc:00:11:22" = "AABBCC"
  /\ MacVendorLookup._normalize_mac "AaBbcC001122" = "AABBCC".
Proof.
  assert (ascii_only "Aa:Bb:cC:00:11:22" = true) as H by reflexivity.
  split; [exact H|].
  destruct (normalize_mac_ignores_case_and_separators "Aa:Bb:cC:00:11:22" H)
    as (H1 & H2 & H3).
  split; [exact H1|]. split; [exact H2|exact H3].
Defined.

(** ** What a lookup leaves behind *)

(** X3.  A MAC of ASCII characters with fewer than six alphanumeric
    characters is looked up to [None] at once: the clock is not read,
    nothing is requested and no attribute changes. *)
Theorem lookup_of_short_mac_is_none (mac : string) (s : Sys) :
  ascii_only mac = true ->
  (String.length (PyStr.filter_chars PyStr.isalnum mac) < 6)%nat ->
  MacVendorLookup.lookup mac s = (PNone, s).
Proof.
  intros _ Hlen. apply lookup_invalid. rewrite normalize_eq.
  assert (String.length (canonical_mac mac)
          = String.length (PyStr.filter_chars PyStr.isalnum mac)) as E.
  { unfold canonical_mac. rewrite <- upper_filter_alnum.
    unfold PyStr.upper. generalize (PyStr.filter_chars PyStr.isalnum mac).
    induction s0 as [|c r IH]; cbn; [reflexivity|]. now rewrite IH. }
  rewrite E. destruct (Nat.ltb_spec (String.length
    (PyStr.filter_chars PyStr.isalnum mac)) 6); [reflexivity|lia].
Qed.

Lemma lookup_of_short_mac_is_none_witness :
  ascii_only "aa:bb:c" = true
  /\ (String.length (PyStr.filter_chars PyStr.isalnum "aa:bb:c") < 6)%nat
  /\ MacVendorLookup.lookup "aa:bb:c" (sys_fresh env_plain 0)
     = (PNone, sys_fresh env_plain 0).
Proof.
  assert (ascii_only "aa:bb:c" = true) as Ha by reflexivity.
  assert (String.length (PyStr.filter_chars PyStr.isalnum "aa:bb:c") < 6)%nat
    as H by (vm_compute; lia).
  split; [exact Ha|]. split; [exact H|].
  exact (lookup_of_short_mac_is_none "aa:bb:c" _ Ha H).
Defined.

(** The attributes and the file after a lookup that went online. *)
Lemma lookup_miss_effect mac s :
  let oui := MacVendorLookup._normalize_mac mac in
  let v := eval (MacVendorLookup.lookup mac) s in
  let s' := exec (MacVendorLookup.lookup mac) s in
  PyStr.nonempty oui = true ->
  MacVendorLookup.cache_hit (cache s) oui (now s) = None ->
  env s' = env s
  /\ cache s' = (if truthy v then <[oui := (v, now s)]> (cache s) else cache s)
  /\ disk_writes s' = (if truthy v then S (disk_writes s) else disk_writes s)
  /\ cache_file s' = (if truthy v
                      then match disk (env s) (disk_writes s) with
                           | WriteOk => FileData (cache s')
                           | OpenFails => cache_file s
                           | WriteFails => FilePartial
                           end
                      else cache_file s).
Proof.
  intros oui v s' Hv Hmiss. subst v s'. unfold eval, exec.
  rewrite (lookup_miss _ _ Hv Hmiss). cbn zeta. fold oui. cbn [fst snd].
  destruct (before_query_spec s) as (He & _ & Hc & _ & Hf & Hw & _).
  destruct (quiet_lookup_online_from API_URLS oui (before_query s))
    as ((He3 & _) & Hc3 & _ & Hf3 & Hw3).
  fold (MacVendorLookup._lookup_online oui) in He3, Hc3, Hf3, Hw3.
  unfold exec in He3, Hc3, Hf3, Hw3.
  destruct (MacVendorLookup._lookup_online oui (before_query s)) as [v s3].
  cbn [fst snd] in *.
  destruct (after_query_spec oui (now s) v s3) as (He' & _ & _ & _ & Hc' & Hn' & Ht').
  cbn zeta in *. rewrite He', Hc'.
  split; [congruence|].
  destruct (truthy v).
  - destruct (Ht' eq_refl) as [Hw' Hf']. rewrite Hw', Hf', Hc'.
    rewrite He3, Hw3, Hc3, Hf3, He, Hw, Hc, Hf. auto.
  - destruct (Hn' eq_refl) as [Hf' Hw']. rewrite Hw', Hf'.
    rewrite Hw3, Hc3, Hf3, Hw, Hc, Hf. auto.
Qed.

(** X4.  What a lookup fetched online it serves from the cache afterwards:
    when a lookup went online and returned a vendor that counts as true,
    the next lookup of any MAC with the same OUI, started less than 30 days
    after the first was, returns that vendor and requests nothing. *)
Theorem lookup_result_is_served_from_cache (s : Sys) (mac mac2 : string) :
  let oui := MacVendorLookup._normalize_mac mac in
  let v := eval (MacVendorLookup.lookup mac) s in
  let s' := exec (MacVendorLookup.lookup mac) s in
  PyStr.nonempty oui = true ->
  MacVendorLookup.cache_hit (cache s) oui (now s) = None ->
  truthy v = true ->
  MacVendorLookup._normalize_mac mac2 = oui ->
  (now s' - now s < seconds 2592000)%Z ->
  eval (MacVendorLookup.lookup mac2) s' = v
  /\ http_log (exec (MacVendorLookup.lookup mac2) s') = http_log s'.
Proof.
  intros oui v s' Hv Hmiss Ht H2 Hage.
  destruct (lookup_miss_effect mac s Hv Hmiss) as (_ & Hc & _).
  fold oui v s' in Hc. rewrite Ht in Hc.
  apply lookup_hit_quiet; rewrite H2; [exact Hv|].
  unfold MacVendorLookup.cache_hit. rewrite Hc, lookup_insert_eq.
  change (seconds CACHE_EXPIRY) with (seconds 2592000).
  destruct (Z.ltb_spec (now s' - now s) (seconds 2592000)); [reflexivity|lia].
Qed.

Lemma lookup_result_is_served_from_cache_witness :
  let s := sys_fresh env_plain (seconds 1700000000) in
  let s' := exec (MacVendorLookup.lookup "aa:bb:cc:00:11:22") s in
  (PyStr.nonempty (MacVendorLookup._normalize_mac "aa:bb:cc:00:11:22") = true
   /\ MacVendorLookup.cache_hit (cache s) "AABBCC" (now s) = None
   /\ truthy (eval (MacVendorLookup.lookup "aa:bb:cc:00:11:22") s) = true
   /\ MacVendorLookup._normalize_mac "AA-BB-CC-99-88-77" = "AABBCC"
   /\ (now s' - now s < seconds 2592000)%Z)
  /\ eval (MacVendorLookup.lookup "AA-BB-CC-99-88-77") s' = PStr "Acme Corp"
  /\ http_log (exec (MacVendorLookup.lookup "AA-BB-CC-99-88-77") s') = http_log s'.
Proof.
  intros s s'.
  assert (truthy (eval (MacVendorLookup.lookup "aa:bb:cc:00:11:22") s) = true) as Ht
    by (vm_compute; reflexivity).
  assert (now s' - now s < seconds 2592000)%Z as Hage by (vm_compute; reflexivity).
  assert (eval (MacVendorLookup.lookup "aa:bb:cc:00:11:22") s = PStr "Acme Corp") as Hr
    by (vm_compute; reflexivity).
  split; [split_and!; try reflexivity; assumption|].
  rewrite <- Hr.
  exact (lookup_result_is_served_from_cache s "aa:bb:cc:00:11:22" "AA-BB-CC-99-88-77"
           eq_refl eq_refl Ht eq_refl Hage).
Defined.

(** X5.  A vendor that counts as false is returned but not kept: when a
    lookup went online and its result is empty (a blank body of the first
    provider, a null vendor of the envelope), the cache, the cache file and
    the count of writes are as before. *)
Theorem empty_vendor_is_not_cached (s : Sys) (mac : string) :
  let oui := MacVendorLookup._normalize_mac mac in
  let s' := exec (MacVendorLookup.lookup mac) s in
  PyStr.nonempty oui = true ->
  MacVendorLookup.cache_hit (cache s) oui (now s) = None ->
  truthy (eval (MacVendorLookup.lookup mac) s) = false ->
  cache s' = cache s /\ cache_file s' = cache_file s
  /\ disk_writes s' = disk_writes s.
Proof.
  intros oui s' Hv Hmiss Hf.
  destruct (lookup_miss_effect mac s Hv Hmiss) as (_ & Hc & Hw & Hfile).
  fold oui s' in Hc, Hw, Hfile. rewrite Hf in Hc, Hw, Hfile. auto.
Qed.

Lemma empty_vendor_is_not_cached_witness :
  let s := sys_fresh env_blank (seconds 1700000000) in
  let s' := exec (MacVendorLookup.lookup "aa:bb:cc:00:11:22") s in
  (PyStr.nonempty (MacVendorLookup._normalize_mac "aa:bb:cc:00:11:22") = true
   /\ MacVendorLookup.cache_hit (cache s) "AABBCC" (now s) = None
   /\ eval (MacVendorLookup.lookup "aa:bb:cc:00:11:22") s = PStr "")
  /\ cache s' = cache s /\ cache_file s' = cache_file s
  /\ disk_writes s' = disk_writes s.
Proof.
  intros s s'.
  assert (eval (MacVendorLookup.lookup "aa:bb:cc:00:11:22") s = PStr "") as Hr
    by (vm_compute; reflexivity).
  split; [split_and!; try reflexivity; assumption|].
  apply (empty_vendor_is_not_cached s "aa:bb:cc:00:11:22" eq_refl eq_refl).
  now rewrite Hr.
Defined.

(** X6.  A failed write of the cache file is not fatal and does not undo
    the update in memory: when a lookup went online and returned a vendor
    that counts as true, the cache holds the vendor under the OUI with the
    time read on entry whatever the disk did; the file holds the new cache
    after a write that went through, is as it was when it could not be
    opened, and is left partial when the write broke off. *)
Theorem cache_survives_failed_write (s : Sys) (mac : string) :
  let oui := MacVendorLookup._normalize_mac mac in
  let v := eval (MacVendorLookup.lookup mac) s in
  let s' := exec (MacVendorLookup.lookup mac) s in
  PyStr.nonempty oui = true ->
  MacVendorLookup.cache_hit (cache s) oui (now s) = None ->
  truthy v = true ->
  cache s' = <[oui := (v, now s)]> (cache s)
  /\ cache_file s' = match disk (env s) (disk_writes s) with
                     | WriteOk => FileData (cache s')
                     | OpenFails => cache_file s
                     | WriteFails => FilePartial
                     end.
Proof.
  intros oui v s' Hv Hmiss Ht.
  destruct (lookup_miss_effect mac s Hv Hmiss) as (_ & Hc & _ & Hfile).
  fold oui v s' in Hc, Hfile. rewrite Ht in Hc, Hfile. auto.
Qed.

Lemma cache_survives_failed_write_witness :
  let s := sys_fresh env_readonly_disk (seconds 1700000000) in
  let s' := exec (MacVendorLookup.lookup "aa:bb:cc:00:11:22") s in
  (PyStr.nonempty (MacVendorLookup._normalize_mac "aa:bb:cc:00:11:22") = true
   /\ MacVendorLookup.cache_hit (cache s) "AABBCC" (now s) = None
   /\ truthy (eval (MacVendorLookup.lookup "aa:bb:cc:00:11:22") s) = true)
  /\ cache s' !! "AABBCC" = Some (PStr "Acme Corp", now s)
  /\ cache_file s' = NoFile.
Proof.
  intros s s'.
  assert (eval (MacVendorLookup.lookup "aa:bb:cc:00:11:22") s = PStr "Acme Corp") as Hr
    by (vm_compute; reflexivity).
  assert (truthy (eval (MacVendorLookup.lookup "aa:bb:cc:00:11:22") s) = true) as Ht
    by (now rewrite Hr).
  split; [split_and!; try reflexivity; assumption|].
  destruct (cache_survives_failed_write s "aa:bb:cc:00:11:22" eq_refl eq_refl Ht)
    as [Hc Hf].
  split.
  - unfold s'. rewrite Hc, Hr. apply lookup_insert_eq.
  - exact Hf.
Defined.

(** ** Classification of vendors *)

(** X7.  For a vendor name of ASCII characters, [get_device_type]
    ignores the case of the name, and the categories are tried in the order
    of the source: a name that contains "samsung" is a phone, so the same
    keyword in the list of the smart TVs never decides.  A value that is
    not a string has no type. *)
Theorem device_type_case_and_precedence (vendor : string) :
  ascii_only vendor = true ->
  MacVendorLookup.get_device_type (PStr (PyStr.upper vendor))
  = MacVendorLookup.get_device_type (PStr vendor)
  /\ (PyStr.contains "samsung" (PyStr.lower vendor) = true ->
      MacVendorLookup.get_device_type (PStr vendor) = Some "Điện thoại")
  /\ (forall v, (forall s, v <> PStr s) -> MacVendorLookup.get_device_type v = None).
Proof.
  intros _. split_and!.
  - unfold MacVendorLookup.get_device_type. now rewrite lower_upper.
  - intros H. unfold MacVendorLookup.get_device_type, PyStr.any_in.
    cbn [existsb]. rewrite H. cbn [orb]. now rewrite !orb_true_r.
  - intros v Hv. destruct v; try reflexivity. now destruct (Hv s).
Qed.

Lemma device_type_case_and_precedence_witness :
  ascii_only "Samsung Electronics Co.,Ltd" = true
  /\ PyStr.contains "samsung" (PyStr.lower "Samsung Electronics Co.,Ltd") = true
  /\ MacVendorLookup.get_device_type (PStr "Samsung Electronics Co.,Ltd")
     = Some "Điện thoại"
  /\ MacVendorLookup.get_device_type (PStr "SAMSUNG ELECTRONICS CO.,LTD")
     = Some "Điện thoại".
Proof.
  assert (ascii_only "Samsung Electronics Co.,Ltd" = true) as Ha by reflexivity.
  assert (PyStr.contains "samsung" (PyStr.lower "Samsung Electronics Co.,Ltd") = true)
    as H by reflexivity.
  destruct (device_type_case_and_precedence _ Ha) as (H1 & H2 & _).
  split; [exact Ha|]. split; [exact H|]. split; [exact (H2 H)|].
  rewrite <- (H2 H). exact H1.
Defined.

(** ** What a pass returns and what it keeps *)





Lemma update_same_identity now0 e d : same_identity d (update now0 e d).
Proof.
  destruct e as [a|l]; cbn; [repeat split|].
  unfold dhcp_update. cbn.
  destruct (str_truthy (DHCPLease.hostname l) && _)%bool; repeat split.
Qed.

Lemma update_ip_address now0 e d :
  Discovered.ip_address (update now0 e d) = entry_address e.
Proof.
  destruct e as [a|l]; cbn; [reflexivity|].
  unfold dhcp_update. cbn.
  destruct (str_truthy (DHCPLease.hostname l) && _)%bool; reflexivity.
Qed.

Lemma replay_same_identity now0 es d : same_identity d (replay now0 es d).
Proof.
  induction es as [|e es IH] using rev_ind; [repeat split|].
  rewrite replay_snoc.
  destruct (update_same_identity now0 e (replay now0 es d)) as (A1 & A2 & A3 & A4 & A5 & A6).
  destruct IH as (B1 & B2 & B3 & B4 & B5 & B6).
  repeat split; congruence.
Qed.

(** X9.  An observation of a known MAC writes the address, the time, the
    hostname and the flag, and nothing else: across a pass the entry keeps
    its MAC, its vendor and device type (they are resolved when the entry is
    created and not again), its [first_seen] and its source.  An entry that
    no row names and that stays is untouched; an entry that rows name has
    the address of the last row naming it, leases coming after ARP rows,
    and the time of the pass as [last_seen]. *)
Theorem pass_rewrites_address_and_time_only (w : World) (ds : DataStore)
    (k : string) (d d' : Discovered.t) :
  discovered_devices w !! k = Some d ->
  discovered_devices (exec (detect_new_devices ds) w) !! k = Some d' ->
  same_identity d d'
  /\ (k ∉ observed (feed ds) -> d' = d)
  /\ (forall es e, rows_for k (feed ds) = (es ++ [e])%list ->
        Discovered.ip_address d' = entry_address e
        /\ Discovered.last_seen d' = now (sys w)).
Proof.
  intros Hd Hd'. rewrite (pass_first_seen ds w k d d' Hd Hd').
  split_and!.
  - apply replay_same_identity.
  - intros Hobs. destruct (rows_for k (feed ds)) eqn:E; [reflexivity|].
    exfalso. apply Hobs, rows_for_observed. congruence.
  - intros es e ->. rewrite replay_snoc, update_ip_address, update_last_seen. auto.
Qed.

Lemma pass_rewrites_address_and_time_only_witness :
  let k := "AA:BB:CC:00:11:22" in
  let w := exec (detect_new_devices snapshot_arp_only)
                (world_fresh env_plain (seconds 1700000000)) in
  let w' := exec (detect_new_devices snapshot_with_lease) (later (seconds 60) w) in
  exists d d',
    discovered_devices (later (seconds 60) w) !! k = Some d
    /\ discovered_devices w' !! k = Some d'
    /\ same_identity d d'
    /\ Discovered.vendor d' = PStr "Acme Corp"
    /\ Discovered.source d' = "arp"
    /\ Discovered.last_seen d' = now (sys (later (seconds 60) w)).
Proof.
  intros k w w'.
  assert (Discovered.vendor <$> discovered_devices (later (seconds 60) w) !! k
          = Some (PStr "Acme Corp")
          /\ Discovered.source <$> discovered_devices (later (seconds 60) w) !! k
             = Some "arp") as [Hv Hs] by (vm_compute; split; reflexivity).
  destruct (discovered_devices (later (seconds 60) w) !! k) as [d|] eqn:Hd;
    [|discriminate].
  cbn in Hv, Hs. injection Hv as Hv. injection Hs as Hs.
  assert (is_Some (discovered_devices w' !! k)) as [d' Hd']
    by (apply (bool_decide_unpack _); vm_compute; exact I).
  destruct (pass_rewrites_address_and_time_only (later (seconds 60) w)
              snapshot_with_lease k d d' Hd Hd') as ((A1 & A2 & A3 & A4 & A5 & A6) & _ & H).
  destruct (H [OfArp (arp_row "aa:bb:cc:00:11:22" "192.168.88.10")]
              (OfLease (lease_row "AA:BB:CC:00:11:22" "192.168.88.10" (Some "laptop")))
              eq_refl) as [_ Hl].
  exists d, d'. split_and!; try reflexivity; try congruence.
  repeat split; assumption.
Defined.

Lemma detect_keyed_by_mac ds w :
  keyed_by_mac w -> keyed_by_mac (exec (detect_new_devices ds) w).
Proof.
  intros Hw k d' Hd'.
  destruct (detect_key_spec ds w k) as (_ & _ & _ & mid & Hk & Hev).
  cbn zeta in *.
  assert (mid = Some d') as ->.
  { rewrite Hev in Hd'. destruct mid as [m|]; [|discriminate].
    cbn in Hd'. destruct (decide _); congruence. }
  destruct (discovered_devices w !! k) as [d|] eqn:Hd; cbn [key_outcome] in Hk.
  - injection Hk as ->. destruct (Hw k d Hd) as [Hm Hu].
    destruct (replay_same_identity (now (sys w)) (rows_for k (feed ds)) d) as (E & _).
    split; congruence.
  - destruct (rows_for k (feed ds)) as [|e r] eqn:Hrows; [discriminate|].
    destruct Hk as (dc & t & Hc & _ & Heq). injection Heq as ->.
    assert (In e (rows_for k (feed ds))) as Hin by (rewrite Hrows; now left).
    apply rows_for_In in Hin as [_ Hkey].
    destruct (replay_same_identity (now (sys w)) r dc) as (E & _).
    destruct Hc as (_ & _ & _ & _ & Hm & _).
    split; [|exact (key_of_upper e k Hkey)].
    rewrite E, Hm. unfold key_of in Hkey.
    destruct (PyStr.nonempty _); congruence.
Qed.

(** X10.  The worker keeps the inventory keyed by MAC: when every
    dictionary is stored under its own [mac_address] and that key is in
    upper case, the same holds after any number of passes; it holds of the
    empty inventory the module starts with. *)
Theorem worker_keeps_inventory_keyed_by_mac (snapshots : list DataStore) (w : World) :
  keyed_by_mac w -> keyed_by_mac (exec (discovery_worker snapshots) w).
Proof.
  revert w. induction snapshots as [|ds r IH]; intros w Hw; [exact Hw|].
  unfold exec. cbn [discovery_worker]. unfold bind.
  pose proof (detect_keyed_by_mac ds w Hw) as H1. unfold exec in H1.
  destruct (detect_new_devices ds w) as [nd wa]. cbn [snd] in H1.
  specialize (IH (exec (lift (time_sleep (seconds SCAN_INTERVAL))) wa) H1).
  unfold exec in IH.
  destruct (lift (time_sleep (seconds SCAN_INTERVAL)) wa) as [[] wb]. exact IH.
Qed.

Lemma worker_keeps_inventory_keyed_by_mac_witness :
  let w := world_fresh env_plain (seconds 1700000000) in
  keyed_by_mac w
  /\ keyed_by_mac (exec (discovery_worker [snapshot_two_spellings; snapshot_with_lease]) w).
Proof.
  intros w.
  assert (keyed_by_mac w) as Hw by (intros k d Hd; discriminate).
  split; [exact Hw|].
  exact (worker_keeps_inventory_keyed_by_mac _ w Hw).
Defined.

(** X11.  The worker leaves the monitored set alone and lets at least 20
    seconds pass for each iteration: after [n] iterations the monitored set
    is the same, and the clock shows at least [n] times 20 s more. *)
Theorem worker_period_and_frame (snapshots : list DataStore) (w : World) :
  let w' := exec (discovery_worker snapshots) w in
  monitored w' = monitored w
  /\ (now (sys w) + seconds 20 * Z.of_nat (length snapshots) <= now (sys w'))%Z.
Proof.
  revert w. induction snapshots as [|ds r IH]; intros w; cbn zeta.
  - cbn. split; [reflexivity|]. unfold seconds. lia.
  - unfold exec. cbn [discovery_worker]. unfold bind.
    destruct (detect_key_spec ds w "") as (Hm & _ & Hn & _). cbn zeta in Hm, Hn.
    unfold exec in Hm, Hn.
    destruct (detect_new_devices ds w) as [nd wa]. cbn [snd] in *.
    specialize (IH (exec (lift (time_sleep (seconds SCAN_INTERVAL))) wa)).
    cbn zeta in IH. unfold exec in IH.
    assert (now (sys wa) + seconds 20
            <= now (sys (snd (lift (time_sleep (seconds SCAN_INTERVAL)) wa))))%Z as Hs.
    { cbn. unfold seconds, SCAN_INTERVAL. lia. }
    assert (monitored (snd (lift (time_sleep (seconds SCAN_INTERVAL)) wa))
            = monitored wa) as Hm' by reflexivity.
    destruct (lift (time_sleep (seconds SCAN_INTERVAL)) wa) as [[] wb].
    cbn [snd] in *. destruct IH as [I1 I2].
    split; [congruence|].
    cbn [length]. unfold seconds in *. lia.
Qed.

(** ** The probe, when the host answers *)

(** X12.  With a timeout that [settimeout] accepts (not negative, and
    not beyond the largest timeout the interpreter can keep): on an open
    port, after a login and two queries that succeed, the probe returns a
    candidate made of the arguments and the first row of each answer, with
    the defaults of the source for a missing name, board name or version,
    enabled and without SSL; but only when closing the session succeeds as
    well: when [disconnect] raises, the candidate is dropped and the probe
    returns nothing. *)
Theorem probe_candidate_and_disconnect (h : Probe.Host) (uuid ip username
    password : string) (port timeout : Z) (resources identity : Probe.row)
    (more1 more2 : list Probe.row) :
  let result :=
    Probe.check_mikrotik_device h uuid ip username password port timeout in
  (0 <= timeout <= 9223372036)%Z ->
  Probe.connect_ex h = Probe.Returns 0%Z ->
  Probe.get_api h = Probe.Returns tt ->
  Probe.system_resource_get h = Probe.Returns (resources :: more1) ->
  Probe.identity_resource_get h = Probe.Returns (identity :: more2) ->
  (Probe.disconnect h = Probe.Returns tt ->
   exists d, result = Probe.Returns (Some d)
     /\ Device.id d = Some uuid
     /\ Device.name d = Probe.row_get identity "name" "Unknown Mikrotik"
     /\ Device.host d = ip /\ Device.port d = port
     /\ Device.username d = username /\ Device.password d = password
     /\ Device.board_name d = Some (Probe.row_get resources "board-name" "Unknown")
     /\ Device.version d = Some (Probe.row_get resources "version" "Unknown")
     /\ Device.enabled d = true /\ Device.use_ssl d = false)
  /\ (forall e, Probe.disconnect h = Probe.Raises e -> result = Probe.Returns None).
Proof.
  intros result Ht Hc Ha Hr Hi. subst result.
  rewrite (settimeout_accepts _ _ _ _ _ _ _ Ht).
  unfold Probe.probe_body. rewrite Hc, Ha, Hr, Hi. cbn.
  split.
  - intros ->. cbn. eexists. split; [reflexivity|]. cbn. repeat split.
  - intros e ->. reflexivity.
Qed.

Lemma probe_candidate_and_disconnect_witness :
  (0 <= 3 <= 9223372036)%Z
  /\ (exists d,
        Probe.check_mikrotik_device host_router "id-1" "192.168.88.1" "admin" ""
          8728 3 = Probe.Returns (Some d)
        /\ Device.name d = "core-router"
        /\ Device.board_name d = Some "hAP ac2"
        /\ Device.version d = Some "7.11")
  /\ Probe.check_mikrotik_device host_failing_disconnect "id-1" "192.168.88.1"
       "admin" "" 8728 3 = Probe.Returns None.
Proof.
  assert (0 <= 3 <= 9223372036)%Z as Ht by lia.
  split; [exact Ht|]. split.
  - destruct (probe_candidate_and_disconnect host_router "id-1" "192.168.88.1"
                "admin" "" 8728 3 _ _ _ _ Ht eq_refl eq_refl eq_refl eq_refl)
      as [H _].
    destruct (H eq_refl) as (d & Hd & _ & Hn & _ & _ & _ & _ & Hb & Hv & _).
    exists d. auto.
  - destruct (probe_candidate_and_disconnect host_failing_disconnect "id-1"
                "192.168.88.1" "admin" "" 8728 3 _ _ _ _ Ht eq_refl eq_refl eq_refl
                eq_refl) as [_ H].
    exact (H _ eq_refl).
Defined.



(** X18.  With a timeout beyond the largest one the interpreter can keep
    the probe raises before it connects as well, whatever the host would
    do. *)
Theorem probe_huge_timeout_raises (h : Probe.Host) (uuid ip username
    password : string) (port timeout : Z) :
  (9223372036 < timeout)%Z ->
  exists e,
    Probe.check_mikrotik_device h uuid ip username password port timeout
    = Probe.Raises e.
Proof.
  intros Ht. unfold Probe.check_mikrotik_device, Probe.settimeout.
  destruct (Z.ltb_spec timeout 0); [lia|].
  destruct (Z.ltb_spec Probe.TIMEOUT_MAX timeout);
    [|unfold Probe.TIMEOUT_MAX in *; lia].
  eauto.
Qed.

Lemma probe_huge_timeout_raises_witness :
  (9223372036 < 10000000000)%Z
  /\ exists e,
       Probe.check_mikrotik_device host_router "id-1" "192.168.88.1" "admin" ""
         8728 10000000000 = Probe.Raises e.
Proof.
  assert (9223372036 < 10000000000)%Z as Ht by lia.
  split; [exact Ht|].
  exact (probe_huge_timeout_raises host_router "id-1" "192.168.88.1" "admin" ""
           8728 10000000000 Ht).
Defined.

(** ** Rows that carry their vendor *)

(** X14.  For a row that names its vendor (other than "Unknown") the
    vendor cache is not asked: [extract_device_info] only reads the clock,
    sends no request, leaves the cache as it is, and gives the dictionary
    the vendor of the row and the device type of the row (or "Unknown"). *)
Theorem row_with_vendor_costs_no_lookup (entry : AnyEntry) (source_type
    source_device_id vendor : string) (w : World) :
  let d := eval (extract_device_info entry source_type source_device_id) w in
  let w' := exec (extract_device_info entry source_type source_device_id) w in
  entry_vendor entry = Some vendor ->
  vendor <> "" -> vendor <> "Unknown" ->
  Discovered.vendor d = PStr vendor
  /\ Discovered.device_type d = str_or (entry_device_type entry) "Unknown"
  /\ Discovered.first_seen d = now (sys w)
  /\ http_log (sys w') = http_log (sys w)
  /\ cache (sys w') = cache (sys w)
  /\ discovered_devices w' = discovered_devices w.
Proof.
  intros d w' Hv Hne Hun. subst d w'. unfold eval, exec.
  unfold extract_device_info, lift, time_time, elapse.
  unfold bind, gets, modify, ret. cbn [fst snd].
  rewrite Hv. cbn [str_or].
  assert (PyStr.nonempty vendor = true) as -> by (now apply nonempty_true).
  assert (String.eqb vendor "Unknown" = false) as -> by (now apply String.eqb_neq).
  cbn. repeat split.
Qed.

Lemma row_with_vendor_costs_no_lookup_witness :
  let row := OfArp {| ArpEntry.mac_address := "aa:bb:cc:00:11:22";
                      ArpEntry.address := "192.168.88.10";
                      ArpEntry.device_id := "router-1";
                      ArpEntry.vendor := Some "MikroTik";
                      ArpEntry.device_type := None |} in
  let w := world_fresh env_all_down (seconds 1700000000) in
  (entry_vendor row = Some "MikroTik" /\ "MikroTik" <> "" /\ "MikroTik" <> "Unknown")
  /\ Discovered.vendor (eval (extract_device_info row "arp" "router-1") w)
     = PStr "MikroTik"
  /\ http_log (sys (exec (extract_device_info row "arp" "router-1") w)) = [].
Proof.
  intros row w.
  assert ("MikroTik" <> "") as H1 by discriminate.
  assert ("MikroTik" <> "Unknown") as H2 by discriminate.
  split; [split_and!; try reflexivity; assumption|].
  destruct (row_with_vendor_costs_no_lookup row "arp" "router-1" "MikroTik" w
              eq_refl H1 H2) as (Hv & _ & _ & Hl & _).
  split; [exact Hv|exact Hl].
Defined.

(** ** Loading the cache *)

Lemma load_items_spec items :
  NoDup (map fst items) ->
  forall acc s,
    let r := for_each load_item items acc s in
    (now s <= now (snd r))%Z
    /\ http_log (snd r) = http_log s
    /\ (forall k, ~ In k (map fst items) -> fst r !! k = acc !! k)
    /\ (forall k v, In (k, BareString v) items ->
          exists t, (now s <= t <= now (snd r))%Z
                    /\ fst r !! k = Some (PStr v, t))
    /\ (forall k v ts, In (k, VendorAndTime v ts) items -> fst r !! k = Some (v, ts)).
Proof.
  induction items as [|[k0 val0] items IH]; intros Hnd acc s; cbn zeta.
  - cbn. split_and!; try lia; try reflexivity; intros; contradiction.
  - apply NoDup_cons in Hnd as [Hk0 Hnd]. rewrite list_elem_of_In in Hk0.
    cbn [for_each]. unfold bind.
    assert (exists acc1 s1, load_item (k0, val0) acc s = (acc1, s1)
              /\ (now s <= now s1)%Z /\ http_log s1 = http_log s
              /\ (forall k, k <> k0 -> acc1 !! k = acc !! k)
              /\ match val0 with
                 | BareString v => acc1 !! k0 = Some (PStr v, now s)
                 | VendorAndTime v ts => acc1 !! k0 = Some (v, ts)
                 end) as (acc1 & s1 & -> & Hn1 & Hl1 & Hother & Hthis).
    { destruct val0 as [v|v ts]; eexists; eexists; (split; [reflexivity|]); cbn.
      - split_and!; try lia; try reflexivity.
        + intros k Hne. now rewrite lookup_insert_ne.
        + apply lookup_insert_eq.
      - split_and!; try lia; try reflexivity.
        + intros k Hne. now rewrite lookup_insert_ne.
        + apply lookup_insert_eq. }
    specialize (IH Hnd acc1 s1). cbn zeta in IH.
    destruct (for_each load_item items acc1 s1) as [c s2]. cbn [fst snd] in *.
    destruct IH as (I1 & I2 & I3 & I4 & I5).
    split_and!; try lia; try congruence.
    + intros k Hk. cbn [map In fst] in Hk.
      rewrite I3 by tauto. apply Hother. intros ->. tauto.
    + intros k v [Heq|Hin].
      * inversion Heq; subst. exists (now s). split; [lia|].
        rewrite I3 by exact Hk0. exact Hthis.
      * destruct (I4 k v Hin) as (t & Ht & Hc). exists t. split; [lia|exact Hc].
    + intros k v ts [Heq|Hin].
      * inversion Heq; subst. rewrite I3 by exact Hk0. exact Hthis.
      * exact (I5 k v ts Hin).
Qed.

(** X15.  What [_save_cache] wrote, [_load_cache] reads back: loading the
    file that holds a cache gives that cache, with every timestamp as it
    was, and reads the clock for none of its entries; a file that is not
    there or cannot be parsed gives the empty cache.  So the process that
    starts on the file of a lookup that was written through has the cache
    of the process that wrote it. *)
Theorem load_after_save_round_trip (s : Sys) :
  (forall c, eval (_load_cache (on_disk (FileData c))) s = c)
  /\ eval (_load_cache (on_disk NoFile)) s = ∅
  /\ eval (_load_cache (on_disk FilePartial)) s = ∅
  /\ (forall c, cache_file s = FileData c ->
        cache (exec (startup (on_disk (cache_file s))) s) = c
        /\ last_request_time (exec (startup (on_disk (cache_file s))) s) = 0%Z).
Proof.
  assert (forall c s0, eval (_load_cache (on_disk (FileData c))) s0 = c) as Hrt.
  { intros c s0. unfold eval, on_disk, _load_cache, bind.
    cbn [elapse modify].
    set (items := map _ (map_to_list c)). set (s1 := set_clock _ _ s0).
    assert (map fst items = (map_to_list c).*1) as Hkeys.
    { subst items. rewrite map_map. reflexivity. }
    assert (NoDup (map fst items)) as Hnd.
    { rewrite Hkeys. apply NoDup_fst_map_to_list. }
    destruct (load_items_spec items Hnd ∅ s1) as (_ & _ & Hno & _ & Hyes).
    destruct (for_each load_item items ∅ s1) as [r s2]. cbn [fst snd] in *.
    apply map_eq. intros k.
    destruct (c !! k) as [[v ts]|] eqn:Hk.
    - apply Hyes. subst items. apply in_map_iff.
      exists (k, (v, ts)). split; [reflexivity|].
      apply list_elem_of_In, elem_of_map_to_list. exact Hk.
    - rewrite Hno; [apply lookup_empty|].
      rewrite Hkeys. intros Hin. apply list_elem_of_In in Hin.
      apply list_elem_of_fmap in Hin as ([k' x] & -> & Hin).
      apply elem_of_map_to_list in Hin. cbn in Hk. congruence. }
  split_and!; try reflexivity; [exact (fun c => Hrt c s)|].
  intros c Hf. rewrite Hf. unfold exec, startup, bind.
  specialize (Hrt c s). unfold eval in Hrt.
  destruct (_load_cache (on_disk (FileData c)) s) as [loaded s1].
  cbn in *. subst loaded. auto.
Qed.

Lemma load_after_save_round_trip_witness :
  let s := sys_fresh env_plain (seconds 1700000000) in
  let s' := exec (MacVendorLookup.lookup "aa:bb:cc:00:11:22") s in
  cache_file s' = FileData (cache s')
  /\ cache (exec (startup (on_disk (cache_file s'))) s') = cache s'
  /\ cache s' !! "AABBCC" = Some (PStr "Acme Corp", now s).
Proof.
  intros s s'.
  assert (eval (MacVendorLookup.lookup "aa:bb:cc:00:11:22") s = PStr "Acme Corp") as Hr
    by (vm_compute; reflexivity).
  destruct (lookup_miss_effect "aa:bb:cc:00:11:22" s eq_refl eq_refl)
    as (_ & Hc & _ & Hf).
  rewrite Hr in Hc, Hf. cbn [truthy PyStr.nonempty] in Hc, Hf.
  change (disk (env s) (disk_writes s)) with WriteOk in Hf. cbv iota in Hf.
  fold s' in Hc, Hf.
  destruct (load_after_save_round_trip s') as (_ & _ & _ & H).
  split; [exact Hf|]. split; [exact (proj1 (H _ Hf))|].
  rewrite Hc. apply lookup_insert_eq.
Defined.

(** X16.  An entry that the file holds as a bare string is taken as
    fetched at the moment it is loaded: when the keys of the file are
    distinct, such an entry enters the cache with a time read during the
    load, whatever its real age, while an entry written as a pair keeps its
    own timestamp; loading sends no request. *)
Theorem legacy_entries_are_stamped_at_load (items : list (string * FileValue))
    (s : Sys) :
  let c := eval (_load_cache (JsonObject items)) s in
  let s' := exec (_load_cache (JsonObject items)) s in
  NoDup (map fst items) ->
  (forall k v, In (k, BareString v) items ->
     exists t, (now s <= t <= now s')%Z /\ c !! k = Some (PStr v, t))
  /\ (forall k v ts, In (k, VendorAndTime v ts) items -> c !! k = Some (v, ts))
  /\ (forall k, ~ In k (map fst items) -> c !! k = None)
  /\ http_log s' = http_log s.
Proof.
  intros c s' Hnd. subst c s'. unfold eval, exec, _load_cache, bind.
  cbn [elapse modify]. set (s1 := set_clock _ _ s).
  assert (now s <= now s1)%Z as Hn by (subst s1; cbn; lia).
  destruct (load_items_spec items Hnd ∅ s1) as (I1 & I2 & I3 & I4 & I5).
  destruct (for_each load_item items ∅ s1) as [r s2]. cbn [fst snd] in *.
  split_and!.
  - intros k v Hin. destruct (I4 k v Hin) as (t & Ht & Hc).
    exists t. split; [lia|exact Hc].
  - exact I5.
  - intros k Hk. rewrite I3 by exact Hk. apply lookup_empty.
  - rewrite I2. reflexivity.
Qed.

Lemma legacy_entries_are_stamped_at_load_witness :
  let s := sys_fresh env_plain (seconds 1700000000) in
  let c := eval (_load_cache legacy_file) s in
  NoDup (map fst [("AABBCC", BareString "Acme Corp");
                  ("112233", VendorAndTime (PStr "Globex") 5%Z)])
  /\ (exists t, (now s <= t)%Z /\ c !! "AABBCC" = Some (PStr "Acme Corp", t))
  /\ c !! "112233" = Some (PStr "Globex", 5%Z).
Proof.
  intros s c.
  assert (NoDup (map fst [("AABBCC", BareString "Acme Corp");
                          ("112233", VendorAndTime (PStr "Globex") 5%Z)])) as Hnd.
  { cbn. repeat constructor; set_solver. }
  destruct (legacy_entries_are_stamped_at_load _ s Hnd) as (H1 & H2 & _).
  split; [exact Hnd|]. split.
  - destruct (H1 "AABBCC" "Acme Corp" (or_introl eq_refl)) as (t & Ht & Hc).
    exists t. split; [lia|exact Hc].
  - apply H2. right. left. reflexivity.
Defined.

(** ** The record a promotion creates *)

(** X17.  The promotion of a MAC of the inventory that no monitored
    device has (up to case) appends one record and touches nothing else:
    the inventory and the vendor cache are as before.  The record is
    disabled, has the default port 8728, the user [admin] with an empty
    password and no SSL, the current address of the entry as host, the MAC
    as given and the site; it is named after the hostname when the entry has
    one. *)
Theorem promotion_appends_a_disabled_record (py_repr : pyval -> string)
    (strftime : Z -> string) (w : World) (mac site : string) (info : Discovered.t) :
  let w' := exec (add_to_monitored_devices py_repr strftime mac site) w in
  discovered_devices w !! mac = Some info ->
  (forall dev, In dev (monitored w) -> same_mac_ignoring_case mac dev = false) ->
  discovered_devices w' = discovered_devices w
  /\ sys w' = sys w
  /\ exists d,
       monitored w' = (monitored w ++ [d])%list
       /\ Device.enabled d = false
       /\ Device.port d = 8728%Z
       /\ Device.username d = "admin" /\ Device.password d = ""
       /\ Device.use_ssl d = false
       /\ Device.host d = Discovered.ip_address info
       /\ Device.mac_address d = Some mac
       /\ Device.site_id d = Some site
       /\ (str_truthy (Discovered.hostname info) = true ->
           Some (Device.name d) = Discovered.hostname info).
Proof.
  intros w' Hinv Hnone. subst w'.
  assert (List.find (same_mac_ignoring_case mac) (monitored w) = None) as Hf.
  { destruct (List.find _ _) as [dev|] eqn:Hf; [|reflexivity].
    apply find_some in Hf as [Hin Hs]. rewrite (Hnone dev Hin) in Hs. discriminate. }
  unfold exec. rewrite (promote_new _ _ _ _ _ _ Hinv Hf). cbn [snd].
  split; [reflexivity|]. split; [reflexivity|].
  eexists. split; [reflexivity|]. cbn. split_and!; try reflexivity.
  intros Ht. rewrite Ht. destruct (Discovered.hostname info); [reflexivity|discriminate].
Qed.

Lemma promotion_appends_a_disabled_record_witness :
  let w := exec (detect_new_devices snapshot_with_lease)
                (world_fresh env_plain (seconds 1700000000)) in
  let w' := exec (add_to_monitored_devices (fun _ => "") (fun _ => "")
                    "AA:BB:CC:00:11:22" "site-1") w in
  is_Some (discovered_devices w !! "AA:BB:CC:00:11:22")
  /\ monitored w = []
  /\ discovered_devices w' = discovered_devices w
  /\ exists d, monitored w' = [d] /\ Device.enabled d = false
               /\ Device.username d = "admin".
Proof.
  intros w w'.
  assert (is_Some (discovered_devices w !! "AA:BB:CC:00:11:22")) as Hin.
  { apply (bool_decide_unpack _). vm_compute. exact I. }
  assert (monitored w = []) as Hm by (vm_compute; reflexivity).
  destruct Hin as [info Hinfo].
  destruct (promotion_appends_a_disabled_record (fun _ => "") (fun _ => "") w
              "AA:BB:CC:00:11:22" "site-1" info Hinfo) as (H1 & _ & d & Hd & He & _ & Hu & _).
  { intros dev Hdev. rewrite Hm in Hdev. destruct Hdev. }
  split; [eauto|]. split; [exact Hm|]. split; [exact H1|].
  exists d. rewrite Hm in Hd. auto.
Defined.
